(** * NeuraVault-MCP frontend: the UI state of the landing page

    A shallow embedding of the client-side state logic of the React
    components [Navigation], [App] (its route table) and [CodeExamples],
    together with the properties of that logic.

    React state ([useState]) is a record field; an event handler is a
    function on the record; the browser's event loop is a list of events
    replayed by [run].  What a component reads from its surroundings
    (the router's [location.pathname], [window.scrollY], the viewport
    width that the Tailwind [md:] classes test, the clipboard, timers and
    the clock) is part of the state record as well. *)

From Stdlib Require Import QArith Ascii String.
From stdpp Require Import base option list strings gmap.

Local Open Scope string_scope.
Local Open Scope list_scope.

(* ===================================================================== *)
(** ** Navigation.tsx *)
(* ===================================================================== *)

Module Navigation.

Record NavItem := mkNavItem { name : string; path : string }.

(** [const navItems = [...]] *)
Definition navItems : list NavItem :=
  [ mkNavItem "Home" "/";
    mkNavItem "Docs" "/docs";
    mkNavItem "Studio" "/studio" ].

Record State := mkState {
  isOpen : bool;      (* const [isOpen, setIsOpen] = useState(false) *)
  scrolled : bool;    (* const [scrolled, setScrolled] = useState(false) *)
  pathname : string;  (* useLocation().pathname *)
  md : bool           (* the viewport is at least as wide as the md breakpoint *)
}.

(** The component as mounted on a page loaded at [p]. *)
Definition initial (p : string) (wide : bool) : State :=
  mkState false false p wide.

Definition setIsOpen (b : bool) (s : State) : State :=
  mkState b (scrolled s) (pathname s) (md s).

Definition setScrolled (b : bool) (s : State) : State :=
  mkState (isOpen s) b (pathname s) (md s).

(** The router's reaction to a click on [<Link to={p}>]. *)
Definition navigate (p : string) (s : State) : State :=
  mkState (isOpen s) (scrolled s) p (md s).

Definition resize (wide : bool) (s : State) : State :=
  mkState (isOpen s) (scrolled s) (pathname s) wide.

(** [x > y] on numbers; [window.scrollY] may be fractional. *)
Definition Qgtb (x y : Q) : bool := negb (Qle_bool x y).

(** [const handleScroll = () => { setScrolled(window.scrollY > 50) }] *)
Definition handleScroll (scrollY : Q) (s : State) : State :=
  setScrolled (Qgtb scrollY 50) s.

(** Menu button: [onClick={() => setIsOpen(!isOpen)}] *)
Definition menuButtonClick (s : State) : State :=
  setIsOpen (negb (isOpen s)) s.

(** Mobile link: [onClick={() => setIsOpen(false)}], then the Link
    navigates to [item.path]. *)
Definition mobileLinkClick (item : NavItem) (s : State) : State :=
  navigate (path item) (setIsOpen false s).

(** Desktop link: a [Link] with no [onClick]; it only navigates. *)
Definition desktopLinkClick (item : NavItem) (s : State) : State :=
  navigate (path item) s.

(** The logo: [<Link to="/">], no [onClick] either. *)
Definition logoClick (s : State) : State := navigate "/" s.

(** *** Rendering of the links *)

Definition desktopLinkClass (s : State) (item : NavItem) : string :=
  "relative text-sm font-medium transition-colors hover:text-primary " ++
  (if String.eqb (pathname s) (path item)
   then "text-primary"
   else "text-muted-foreground").

(** [{location.pathname === item.path && <motion.div layoutId="underline" />}] *)
Definition desktopLinkUnderline (s : State) (item : NavItem) : bool :=
  String.eqb (pathname s) (path item).

Definition mobileLinkClass (s : State) (item : NavItem) : string :=
  "block px-4 py-2 text-sm font-medium rounded-lg transition-colors " ++
  (if String.eqb (pathname s) (path item)
   then "bg-primary/20 text-primary"
   else "text-muted-foreground hover:text-primary hover:bg-white/5").

Definition desktopActiveClass : string :=
  "relative text-sm font-medium transition-colors hover:text-primary text-primary".

Definition mobileActiveClass : string :=
  "block px-4 py-2 text-sm font-medium rounded-lg transition-colors bg-primary/20 text-primary".

(** [<motion.nav className={`... ${scrolled ? 'glass-morphism border-b' : 'bg-transparent'}`}>] *)
Definition navClass (s : State) : string :=
  "fixed top-0 w-full z-50 transition-all duration-300 " ++
  (if scrolled s then "glass-morphism border-b" else "bg-transparent").

(** *** Events

    The desktop links sit in a [hidden md:flex] container and the menu
    button and the mobile links in [md:hidden] ones, so which of them
    can be clicked depends on the viewport width.  The logo is shown
    at every width.  Links are rendered by [navItems.map], so a click
    names the rendered entry by its index. *)

Inductive event :=
| Scroll (scrollY : Q)
| Resize (wide : bool)
| MenuButtonClick
| MobileLinkClick (i : nat)
| DesktopLinkClick (i : nat)
| LogoClick.

(** [None]: the event cannot happen in [s] (the control is not shown). *)
Definition handle (e : event) (s : State) : option State :=
  match e with
  | Scroll y => Some (handleScroll y s)
  | Resize w => Some (resize w s)
  | MenuButtonClick =>
      if md s then None else Some (menuButtonClick s)
  | MobileLinkClick i =>
      if md s then None
      else item ← navItems !! i; Some (mobileLinkClick item s)
  | DesktopLinkClick i =>
      if md s then item ← navItems !! i; Some (desktopLinkClick item s)
      else None
  | LogoClick => Some (logoClick s)
  end.

Fixpoint run (tr : list event) (s : State) : option State :=
  match tr with
  | [] => Some s
  | e :: tr' => s' ← handle e s; run tr' s'
  end.

(** A click on one of the links generated from [navItems]. *)
Definition isNavLinkClick (e : event) : bool :=
  match e with
  | MobileLinkClick _ | DesktopLinkClick _ => true
  | _ => false
  end.

(** The event widens a narrow viewport. *)
Definition widens (e : event) (s : State) : bool :=
  match e with
  | Resize true => negb (md s)
  | _ => false
  end.

(** Along the run of [tr] from [s], the viewport is never widened while
    the menu is open. *)
Fixpoint neverWidenedWhileOpen (tr : list event) (s : State) : bool :=
  match tr with
  | [] => true
  | e :: tr' =>
      negb (widens e s && isOpen s) &&
      match handle e s with
      | Some s' => neverWidenedWhileOpen tr' s'
      | None => true
      end
  end.

(** On a wide viewport the menu is closed. *)
Definition closedIfWide (s : State) : Prop :=
  md s = true → isOpen s = false.

End Navigation.

(* ===================================================================== *)
(** ** App.tsx: the route table *)
(* ===================================================================== *)

Module App.

Inductive Page := HomePage | DocsPage.

Record RouteDef := mkRoute { path : string; element : Page }.

(** [<Route path="/" element={<HomePage />} />]
    [<Route path="/docs" element={<DocsPage />} />] *)
Definition routes : list RouteDef :=
  [ mkRoute "/" HomePage; mkRoute "/docs" DocsPage ].

(** The router's matching of a path without parameters: the pattern,
    written with one leading slash and no trailing one, must be the
    whole of the pathname up to trailing slashes; letters are compared
    without regard to case.  The pathname is taken as it is written:
    percent-escapes are not decoded here, so this matching is the
    router's on pathnames without escapes only. *)

Definition lower (a : ascii) : ascii :=
  let n := nat_of_ascii a in
  if (65 <=? n)%nat && (n <=? 90)%nat then ascii_of_nat (n + 32) else a.

Fixpoint onlySlashes (s : string) : bool :=
  match s with
  | EmptyString => true
  | String c s' => Ascii.eqb c "/" && onlySlashes s'
  end.

Fixpoint dropLeadingSlashes (s : string) : string :=
  match s with
  | String c s' => if Ascii.eqb c "/" then dropLeadingSlashes s' else s
  | EmptyString => EmptyString
  end.

Fixpoint dropTrailingSlashes (s : string) : string :=
  match s with
  | EmptyString => EmptyString
  | String c s' => if onlySlashes s then EmptyString
                   else String c (dropTrailingSlashes s')
  end.

Definition normalizePattern (p : string) : string :=
  String "/" (dropLeadingSlashes (dropTrailingSlashes p)).

(** What is left of [s] after the prefix [p], if [p] is one. *)
Fixpoint afterPrefix (p s : string) : option string :=
  match p, s with
  | EmptyString, _ => Some s
  | String a p', String b s' =>
      if Ascii.eqb (lower a) (lower b) then afterPrefix p' s' else None
  | String _ _, EmptyString => None
  end.

Definition matchPath (pattern pathname : string) : bool :=
  match afterPrefix (normalizePattern pattern) pathname with
  | Some rest => onlySlashes rest
  | None => false
  end.

(** [<Routes>]: the element of the matching route; [None] renders
    nothing. *)
Definition Routes (pathname : string) : option Page :=
  element <$> List.find (λ r, matchPath (path r) pathname) routes.

Inductive Block := NavigationBar | Content (p : Page) | FooterBar.

(** [<Navigation /> <Routes>...</Routes> <Footer />] *)
Definition render (pathname : string) : list Block :=
  NavigationBar :: option_list (Content <$> Routes pathname) ++ [FooterBar].

End App.

(* ===================================================================== *)
(** ** CodeExamples.tsx *)
(* ===================================================================== *)

Module CodeExamples.

Inductive Icon := Globe | Code | Terminal.

Record Example := mkExample {
  id : string;
  title : string;
  icon : Icon;
  description : string;
  language : string;
  code : string
}.

(** The double quote and the line feed, for the code samples. *)
Definition dq : string := String (ascii_of_nat 34) EmptyString.
Definition nl : string := String (ascii_of_nat 10) EmptyString.

Definition code_multi_llm : string :=
  String.concat nl
  [
    "# Store memory from OpenAI conversation";
    "curl -X POST " +:+ dq +:+ "http://localhost:8000/memory" +:+ dq +:+ " \";
    "  -H " +:+ dq +:+ "Content-Type: application/json" +:+ dq +:+ " \";
    "  -d '{";
    "    " +:+ dq +:+ "user_id" +:+ dq +:+ ": " +:+ dq +:+ "alice" +:+ dq +:+ ",";
    "    " +:+ dq +:+ "llm" +:+ dq +:+ ": " +:+ dq +:+ "gpt-4o" +:+ dq +:+ ",";
    "    " +:+ dq +:+ "content" +:+ dq +:+ ": " +:+ dq +:+ "Alice prefers concise explanations and code examples" +:+ dq;
    "  }'";
    EmptyString;
    "# Store memory from Claude conversation  ";
    "curl -X POST " +:+ dq +:+ "http://localhost:8000/memory" +:+ dq +:+ " \";
    "  -H " +:+ dq +:+ "Content-Type: application/json" +:+ dq +:+ " \";
    "  -d '{";
    "    " +:+ dq +:+ "user_id" +:+ dq +:+ ": " +:+ dq +:+ "alice" +:+ dq +:+ ", ";
    "    " +:+ dq +:+ "llm" +:+ dq +:+ ": " +:+ dq +:+ "claude-3-opus" +:+ dq +:+ ",";
    "    " +:+ dq +:+ "content" +:+ dq +:+ ": " +:+ dq +:+ "Alice is working on a React project with TypeScript" +:+ dq;
    "  }'";
    EmptyString;
    "# Retrieve all memories for user (cross-model context)";
    "curl " +:+ dq +:+ "http://localhost:8000/memory/alice" +:+ dq;
    EmptyString;
    "# Response - memories from all models";
    "[";
    "  {";
    "    " +:+ dq +:+ "user_id" +:+ dq +:+ ": " +:+ dq +:+ "alice" +:+ dq +:+ ",";
    "    " +:+ dq +:+ "llm" +:+ dq +:+ ": " +:+ dq +:+ "gpt-4o" +:+ dq +:+ ",";
    "    " +:+ dq +:+ "content" +:+ dq +:+ ": " +:+ dq +:+ "Alice prefers concise explanations and code examples" +:+ dq +:+ ",";
    "    " +:+ dq +:+ "timestamp" +:+ dq +:+ ": " +:+ dq +:+ "2024-01-15T10:30:00Z" +:+ dq;
    "  },";
    "  {";
    "    " +:+ dq +:+ "user_id" +:+ dq +:+ ": " +:+ dq +:+ "alice" +:+ dq +:+ ", ";
    "    " +:+ dq +:+ "llm" +:+ dq +:+ ": " +:+ dq +:+ "claude-3-opus" +:+ dq +:+ ",";
    "    " +:+ dq +:+ "content" +:+ dq +:+ ": " +:+ dq +:+ "Alice is working on a React project with TypeScript" +:+ dq +:+ ",";
    "    " +:+ dq +:+ "timestamp" +:+ dq +:+ ": " +:+ dq +:+ "2024-01-15T10:32:00Z" +:+ dq;
    "  }";
    "]"
  ].

Definition code_python_api : string :=
  String.concat nl
  [
    "from app.memory import MemoryItem, memory_store";
    EmptyString;
    "# Store memories from different LLMs";
    "models = [" +:+ dq +:+ "gpt-4o" +:+ dq +:+ ", " +:+ dq +:+ "claude-3-opus" +:+ dq +:+ ", " +:+ dq +:+ "gemini-pro" +:+ dq +:+ ", " +:+ dq +:+ "grok-1" +:+ dq +:+ "]";
    EmptyString;
    "for model in models:";
    "    memory_store.add(";
    "        MemoryItem(";
    "            user_id=" +:+ dq +:+ "bob" +:+ dq +:+ ",";
    "            llm=model,";
    "            content=f" +:+ dq +:+ "Bob's preferences learned via {model}" +:+ dq;
    "        )";
    "    )";
    EmptyString;
    "# Get all memories regardless of source model";
    "all_memories = memory_store.get(" +:+ dq +:+ "bob" +:+ dq +:+ ")";
    "print(f" +:+ dq +:+ "Total memories from {len(set(m.llm for m in all_memories))} models" +:+ dq +:+ ")";
    EmptyString;
    "# Search across all models";
    "results = memory_store.search(" +:+ dq +:+ "bob" +:+ dq +:+ ", " +:+ dq +:+ "preferences" +:+ dq +:+ ")";
    "for result in results:";
    "    print(f" +:+ dq +:+ "{result.llm}: {result.content}" +:+ dq +:+ ")";
    EmptyString;
    "# Get memories by specific model";
    "claude_memories = [m for m in all_memories if m.llm == " +:+ dq +:+ "claude-3-opus" +:+ dq +:+ "]";
    "print(f" +:+ dq +:+ "Claude-specific memories: {len(claude_memories)}" +:+ dq +:+ ")"
  ].

Definition code_openai_plugin : string :=
  String.concat nl
  [
    "{";
    "  " +:+ dq +:+ "schema_version" +:+ dq +:+ ": " +:+ dq +:+ "v1" +:+ dq +:+ ",";
    "  " +:+ dq +:+ "name_for_model" +:+ dq +:+ ": " +:+ dq +:+ "mcp_memory" +:+ dq +:+ ",";
    "  " +:+ dq +:+ "name_for_human" +:+ dq +:+ ": " +:+ dq +:+ "Memory Storage" +:+ dq +:+ ",";
    "  " +:+ dq +:+ "description_for_model" +:+ dq +:+ ": " +:+ dq +:+ "Store and retrieve user context and memories" +:+ dq +:+ ",";
    "  " +:+ dq +:+ "description_for_human" +:+ dq +:+ ": " +:+ dq +:+ "Persistent memory for AI conversations" +:+ dq +:+ ",";
    "  " +:+ dq +:+ "auth" +:+ dq +:+ ": {";
    "    " +:+ dq +:+ "type" +:+ dq +:+ ": " +:+ dq +:+ "none" +:+ dq;
    "  },";
    "  " +:+ dq +:+ "api" +:+ dq +:+ ": {";
    "    " +:+ dq +:+ "type" +:+ dq +:+ ": " +:+ dq +:+ "openapi" +:+ dq +:+ ",";
    "    " +:+ dq +:+ "url" +:+ dq +:+ ": " +:+ dq +:+ "http://localhost:8000/openapi.json" +:+ dq;
    "  },";
    "  " +:+ dq +:+ "logo_url" +:+ dq +:+ ": " +:+ dq +:+ "http://localhost:8000/logo.png" +:+ dq +:+ ",";
    "  " +:+ dq +:+ "contact_email" +:+ dq +:+ ": " +:+ dq +:+ "support@mcp.dev" +:+ dq +:+ ",";
    "  " +:+ dq +:+ "legal_info_url" +:+ dq +:+ ": " +:+ dq +:+ "http://localhost:8000/legal" +:+ dq;
    "}"
  ].

(** [const examples = [...]] *)
Definition examples : list Example :=
  [ mkExample "multi-llm" "Multi-LLM Memory" Globe
      "Share memories across OpenAI, Claude, Gemini, and Grok"
      "bash" code_multi_llm;
    mkExample "python-api" "Cross-Model Python API" Code
      "Manage memories across multiple LLMs in Python"
      "python" code_python_api;
    mkExample "openai-plugin" "OpenAI Plugin Setup" Terminal
      "Configure as a ChatGPT plugin for automatic memory management"
      "json" code_openai_plugin ].

(** How a piece of code ends: normally, or by throwing. *)
Inductive completion (A : Type) :=
| Normal (a : A)
| Throw (err : string).
Arguments Normal {A} a.
Arguments Throw {A} err.

(** A call of [copyToClipboard(text, id)] suspended at its [await]. *)
Record PendingWrite := mkWrite { text : string; caller_id : string }.

(** A pending [setTimeout]; the callback is always
    [() => setCopiedStates(prev => ({ ...prev, [id]: false }))], so the
    timer is given by the [id] its closure captured and by when it is
    due. *)
Record Timer := mkTimer { due : nat; captured_id : string }.

Record State := mkState {
  activeTab : string;                 (* useState(examples[0].id) *)
  copiedStates : gmap string bool;    (* useState<Record<string, boolean>>({}) *)
  inflight : list PendingWrite;       (* clipboard writes not yet settled *)
  timers : list Timer;                (* timers not yet fired *)
  now : nat;                          (* the clock, in ms *)
  clipboard : string;                 (* the system clipboard *)
  console : list (string * string);   (* console.error calls *)
  uncaught : list string              (* exceptions that escaped a handler *)
}.

(** [useState(examples[0].id)]: reading [.id] of a missing first
    example would throw. *)
Definition mount (t0 : nat) (clip : string) : completion State :=
  match examples !! 0%nat with
  | Some ex => Normal (mkState (id ex) ∅ [] [] t0 clip [] [])
  | None => Throw "TypeError: examples[0] is undefined"
  end.

Definition setActiveTab (tab : string) (s : State) : State :=
  mkState tab (copiedStates s) (inflight s) (timers s) (now s)
          (clipboard s) (console s) (uncaught s).

(** [examples.find(ex => ex.id === activeTab) || examples[0]];
    [None] stands for [undefined]. *)
Definition activeExample (s : State) : option Example :=
  match List.find (λ ex, String.eqb (id ex) (activeTab s)) examples with
  | Some ex => Some ex
  | None => examples !! 0%nat
  end.

(** *** Handlers as computations on the state that may throw *)

Definition M (A : Type) : Type := State → State * completion A.

Definition ret {A} (a : A) : M A := λ s, (s, Normal a).

Definition throw {A} (e : string) : M A := λ s, (s, Throw e).

Definition bind {A B} (m : M A) (k : A → M B) : M B :=
  λ s, match m s with
       | (s', Normal a) => k a s'
       | (s', Throw e) => (s', Throw e)
       end.

(** [try { m } catch (err) { h err }] *)
Definition try_catch {A} (m : M A) (h : string → M A) : M A :=
  λ s, match m s with
       | (s', Throw e) => h e s'
       | r => r
       end.

#[global] Instance M_ret : MRet M := @ret.
#[global] Instance M_bind : MBind M := λ A B k m, bind m k.

(** [setCopiedStates(prev => f prev)] *)
Definition setCopiedStates (f : gmap string bool → gmap string bool) : M () :=
  λ s, (mkState (activeTab s) (f (copiedStates s)) (inflight s) (timers s)
                (now s) (clipboard s) (console s) (uncaught s),
        Normal ()).

(** [setTimeout(() => setCopiedStates(prev => ({...prev, [id]: false})), delay)] *)
Definition setTimeout_reset (id : string) (delay : nat) : M () :=
  λ s, (mkState (activeTab s) (copiedStates s) (inflight s)
                (timers s ++ [mkTimer (now s + delay) id])
                (now s) (clipboard s) (console s) (uncaught s),
        Normal ()).

(** [console.error(msg, err)] *)
Definition console_error (msg err : string) : M () :=
  λ s, (mkState (activeTab s) (copiedStates s) (inflight s) (timers s)
                (now s) (clipboard s) (console s ++ [(msg, err)]) (uncaught s),
        Normal ()).

(** [await navigator.clipboard.writeText(text)], once the platform has
    settled the promise: fulfilled means the text is on the clipboard,
    rejected means the [await] throws.  A call that throws at once (no
    clipboard API in the page) is caught by the same [try] and counts as
    a rejection here. *)
Definition await_writeText (text : string) (settled : completion ()) : M () :=
  λ s, match settled with
       | Normal _ =>
           (mkState (activeTab s) (copiedStates s) (inflight s) (timers s)
                    (now s) text (console s) (uncaught s),
            Normal ())
       | Throw e => throw e s
       end.

(** [copyToClipboard(text, id)] up to its [await]: the write is handed
    to the platform and the call is suspended. *)
Definition copyToClipboard (text id : string) (s : State) : State :=
  mkState (activeTab s) (copiedStates s) (inflight s ++ [mkWrite text id])
          (timers s) (now s) (clipboard s) (console s) (uncaught s).

(** The rest of [copyToClipboard], run when the write has settled. *)
Definition copyToClipboard_resume (w : PendingWrite)
    (settled : completion ()) : M () :=
  try_catch
    (await_writeText (text w) settled;;
     setCopiedStates (λ prev, <[caller_id w := true]> prev);;
     setTimeout_reset (caller_id w) 2000)
    (λ err, console_error "Failed to copy text: " err).

(** The callback of a timer. *)
Definition timerCallback (t : Timer) : M () :=
  setCopiedStates (λ prev, <[captured_id t := false]> prev).

(** Running a handler as one turn of the event loop: what it throws
    and does not catch is reported by the platform. *)
Definition turn (m : M ()) (s : State) : State :=
  match m s with
  | (s', Normal _) => s'
  | (s', Throw e) =>
      mkState (activeTab s') (copiedStates s') (inflight s') (timers s')
              (now s') (clipboard s') (console s') (uncaught s' ++ [e])
  end.

Definition dropWrite (k : nat) (s : State) : State :=
  mkState (activeTab s) (copiedStates s) (delete k (inflight s)) (timers s)
          (now s) (clipboard s) (console s) (uncaught s).

Definition dropTimer (k : nat) (s : State) : State :=
  mkState (activeTab s) (copiedStates s) (inflight s) (delete k (timers s))
          (now s) (clipboard s) (console s) (uncaught s).

Definition advance (d : nat) (s : State) : State :=
  mkState (activeTab s) (copiedStates s) (inflight s) (timers s)
          (now s + d) (clipboard s) (console s) (uncaught s).

(** *** Rendering of the code block *)

Inductive CopyIcon := CheckIcon | CopyIconPlain.

Record CodeBlock := mkCodeBlock {
  headerIcon : Icon;
  headerTitle : string;
  headerDescription : string;
  copyIcon : CopyIcon;
  codeText : string
}.

(** [copiedStates[activeExample.id] ? <Check /> : <Copy />]; a missing
    key reads as [undefined], which is falsy. *)
Definition copied (s : State) (id : string) : bool :=
  default false (copiedStates s !! id).

Definition renderCodeBlock (s : State) : completion CodeBlock :=
  match activeExample s with
  | Some ex =>
      Normal (mkCodeBlock (icon ex) (title ex) (description ex)
                (if copied s (id ex) then CheckIcon else CopyIconPlain)
                (code ex))
  | None => Throw "TypeError: activeExample is undefined"
  end.

(** *** Events *)

Inductive event :=
| TabClick (i : nat)                               (* the i-th tab button *)
| CopyClick                                        (* the copy button *)
| ClipboardSettle (k : nat) (r : completion ())    (* the k-th pending write settles *)
| Tick (d : nat)                                   (* d ms pass *)
| TimerFire (k : nat).                             (* the k-th pending timer fires *)

(** [None]: the event cannot happen in [s]. A timer fires no earlier
    than it is due. *)
Definition handle (e : event) (s : State) : option State :=
  match e with
  | TabClick i =>
      ex ← examples !! i; Some (setActiveTab (id ex) s)
  | CopyClick =>
      ex ← activeExample s; Some (copyToClipboard (code ex) (id ex) s)
  | ClipboardSettle k r =>
      w ← inflight s !! k;
      Some (turn (copyToClipboard_resume w r) (dropWrite k s))
  | Tick d => Some (advance d s)
  | TimerFire k =>
      t ← timers s !! k;
      if decide (due t ≤ now s)%nat
      then Some (turn (timerCallback t) (dropTimer k s))
      else None
  end.

Fixpoint run (tr : list event) (s : State) : option State :=
  match tr with
  | [] => Some s
  | e :: tr' => s' ← handle e s; run tr' s'
  end.

Definition reachable (s : State) : Prop :=
  ∃ t0 clip s0 tr, mount t0 clip = Normal s0 ∧ run tr s0 = Some s.

(** The copy flag of [x] was set at time [t0] and nothing that could
    clear it is due before [t0 + 2000]: every pending reset of [x] is
    due then or later, and the flag is set for as long as the clock
    has not reached [t0 + 2000]. *)
Definition copiedSince (t0 : nat) (x : string) (s : State) : Prop :=
  (t0 ≤ now s)%nat ∧
  Forall (λ t, captured_id t = x → (t0 + 2000 ≤ due t)%nat) (timers s) ∧
  ((now s < t0 + 2000)%nat → copiedStates s !! x = Some true).

End CodeExamples.

(* ===================================================================== *)
(** ** Entrance animations: [whileInView] with [viewport={{ once: true }}] *)
(* ===================================================================== *)

Module Motion.

(** The [viewport] prop. *)
Record ViewportOptions := mkViewport { once : bool }.

(** A [motion] element that carries a [whileInView] prop. *)
Record Animated := mkAnimated {
  component : string;
  element : string;
  viewport : ViewportOptions
}.

(** Every element with [whileInView] in FeaturesSection and in
    CodeExamples; each one is written with [viewport={{ once: true }}].
    The cards are rendered by a [map], one element per item. *)
Definition animatedElements : list Animated :=
  [ mkAnimated "FeaturesSection" "header" (mkViewport true);
    mkAnimated "FeaturesSection" "feature card" (mkViewport true);
    mkAnimated "FeaturesSection" "use cases header" (mkViewport true);
    mkAnimated "FeaturesSection" "use case card" (mkViewport true);
    mkAnimated "FeaturesSection" "performance stats" (mkViewport true);
    mkAnimated "FeaturesSection" "stat card" (mkViewport true);
    mkAnimated "CodeExamples" "header" (mkViewport true);
    mkAnimated "CodeExamples" "tabs" (mkViewport true);
    mkAnimated "CodeExamples" "code block" (mkViewport true);
    mkAnimated "CodeExamples" "quick start" (mkViewport true) ].

(** What the animation library keeps per element for [whileInView]:
    whether the element intersects the viewport now, whether it ever
    did, and whether the [whileInView] target is applied (the
    visibility flag). *)
Record Observer := mkObserver {
  isInView : bool;
  hasEnteredView : bool;
  visible : bool
}.

Definition mounted : Observer := mkObserver false false false.

(** The library's reaction to an intersection entry: nothing when the
    intersection did not change; with [once], leaving the viewport
    after having entered it is recorded and nothing else; otherwise
    the [whileInView] target is switched to [isIntersecting]. *)
Definition onIntersectionUpdate (opts : ViewportOptions)
    (isIntersecting : bool) (o : Observer) : Observer :=
  if Bool.eqb (isInView o) isIntersecting then o
  else if once opts && negb isIntersecting && hasEnteredView o
  then mkObserver isIntersecting (hasEnteredView o) (visible o)
  else mkObserver isIntersecting
                  (hasEnteredView o || isIntersecting)
                  isIntersecting.

(** The entries of a scroll history, oldest first. *)
Definition observe (opts : ViewportOptions) (entries : list bool)
    (o : Observer) : Observer :=
  foldl (λ o b, onIntersectionUpdate opts b o) o entries.

(** The states the library can be in with [once]: an element counts
    as having entered exactly when it is visible, and it is visible
    while it intersects. *)
Definition consistent (o : Observer) : Prop :=
  hasEnteredView o = visible o ∧ (isInView o = true → visible o = true).

End Motion.

(* ===================================================================== *)
(** ** Navigation.tsx: which entries are highlighted *)
(* ===================================================================== *)

Module NavigationView.
Import Navigation.

(** The entries of [navItems] that are rendered with the underline,
    [location.pathname === item.path]. *)
Definition underlined (s : State) : list NavItem :=
  List.filter (desktopLinkUnderline s) navItems.

(** The menu button shows [<X />] when the menu is open and [<Menu />]
    when it is closed; the mobile list is animated to
    [height: isOpen ? 'auto' : 0]. *)
Inductive MenuIcon := XIcon | MenuIconBars.

Definition menuButtonIcon (s : State) : MenuIcon :=
  if isOpen s then XIcon else MenuIconBars.

End NavigationView.

(* ===================================================================== *)
(** ** The window listeners of Navigation and HeroSection *)
(* ===================================================================== *)

Module Effects.

(** The handler closures: each run of an effect creates its own
    [handleScroll] (Navigation) or [handleMouseMove] (HeroSection), so a
    handler is identified by the component instance it belongs to. *)
Inductive Handler :=
| HandleScroll (inst : nat)
| HandleMouseMove (inst : nat).

Record Listener := mkListener { type : string; handler : Handler }.

#[global] Instance Handler_eq_dec : EqDecision Handler.
Proof. solve_decision. Defined.

#[global] Instance Listener_eq_dec : EqDecision Listener.
Proof. solve_decision. Defined.

(** The listeners registered on [window], in the order of registration. *)
Definition Window := list Listener.

(** [window.addEventListener(type, handler)]: a listener that is already
    registered is not registered twice. *)
Definition addEventListener (ty : string) (h : Handler) (w : Window) : Window :=
  if decide (mkListener ty h ∈ w) then w else w ++ [mkListener ty h].

(** [window.removeEventListener(type, handler)] *)
Definition removeEventListener (ty : string) (h : Handler) (w : Window) : Window :=
  filter (λ l, l ≠ mkListener ty h) w.

Inductive Component := NavigationComponent | HeroSectionComponent.

#[global] Instance Component_eq_dec : EqDecision Component.
Proof. solve_decision. Defined.

(** The body of the component's [useEffect(..., [])], run once when the
    instance is mounted:
    [window.addEventListener('scroll', handleScroll)] in Navigation,
    [window.addEventListener('mousemove', handleMouseMove)] in
    HeroSection. *)
Definition effect (c : Component) (inst : nat) (w : Window) : Window :=
  match c with
  | NavigationComponent => addEventListener "scroll" (HandleScroll inst) w
  | HeroSectionComponent => addEventListener "mousemove" (HandleMouseMove inst) w
  end.

(** The function the effect returns, run when the instance is unmounted:
    [() => window.removeEventListener('scroll', handleScroll)] and
    [() => window.removeEventListener('mousemove', handleMouseMove)]. *)
Definition cleanup (c : Component) (inst : nat) (w : Window) : Window :=
  match c with
  | NavigationComponent => removeEventListener "scroll" (HandleScroll inst) w
  | HeroSectionComponent => removeEventListener "mousemove" (HandleMouseMove inst) w
  end.

Record Page := mkPage {
  window : Window;
  mounted : list (Component * nat)
}.

Inductive lifecycle :=
| Mount (c : Component) (inst : nat)
| Unmount (c : Component) (inst : nat).

(** An instance is mounted once and unmounted only while mounted. *)
Definition handle (e : lifecycle) (p : Page) : option Page :=
  match e with
  | Mount c i =>
      if decide ((c, i) ∈ mounted p) then None
      else Some (mkPage (effect c i (window p)) (mounted p ++ [(c, i)]))
  | Unmount c i =>
      if decide ((c, i) ∈ mounted p)
      then Some (mkPage (cleanup c i (window p))
                        (filter (λ m, m ≠ (c, i)) (mounted p)))
      else None
  end.

Fixpoint run (tr : list lifecycle) (p : Page) : option Page :=
  match tr with
  | [] => Some p
  | e :: tr' => p' ← handle e p; run tr' p'
  end.

(** The listener that a mounted instance is expected to hold. *)
Definition listenerOf (m : Component * nat) : Listener :=
  match m with
  | (NavigationComponent, i) => mkListener "scroll" (HandleScroll i)
  | (HeroSectionComponent, i) => mkListener "mousemove" (HandleMouseMove i)
  end.

End Effects.

(* ===================================================================== *)
(** ** CodeExamples.tsx: the tab buttons, and what holds of its state *)
(* ===================================================================== *)

Module CodeExamplesView.
Import CodeExamples.

(** The class of a tab button,
    [activeTab === example.id ? '... text-primary' : 'glass-morphism ...']. *)
Definition tabButtonClass (s : State) (example : Example) : string :=
  "w-full text-left p-4 rounded-lg transition-all " +:+
  (if String.eqb (activeTab s) (id example)
   then "bg-primary/10 border border-primary/20 text-primary"
   else "glass-morphism hover:bg-white/5 text-muted-foreground hover:text-foreground").

Definition activeTabClass : string :=
  "w-full text-left p-4 rounded-lg transition-all bg-primary/10 border border-primary/20 text-primary".

(** The examples whose tab button is rendered in the active style. *)
Definition highlightedTabs (s : State) : list Example :=
  List.filter (λ ex, String.eqb (tabButtonClass s ex) activeTabClass) examples.

(** Every id the state mentions is the id of an example, and a pending
    write carries the code of the example whose id it carries. *)
Definition wellFormed (s : State) : Prop :=
  activeTab s ∈ id <$> examples ∧
  (∀ x, is_Some (copiedStates s !! x) → x ∈ id <$> examples) ∧
  Forall (λ w, ∃ ex, ex ∈ examples ∧ text w = code ex ∧ caller_id w = id ex)
         (inflight s) ∧
  Forall (λ t, captured_id t ∈ id <$> examples) (timers s).

(** Every set flag has a reset pending, and no reset is due later than
    2000 ms from now. *)
Definition resetPending (s : State) : Prop :=
  (∀ x, copiedStates s !! x = Some true →
        ∃ t, t ∈ timers s ∧ captured_id t = x) ∧
  Forall (λ t, (due t ≤ now s + 2000)%nat) (timers s).

(** A clipboard write that is fulfilled. *)
Definition isFulfilled (e : event) : bool :=
  match e with
  | ClipboardSettle _ (Normal _) => true
  | _ => false
  end.

End CodeExamplesView.

(* ===================================================================== *)
(** ** The launch scripts *)
(* ===================================================================== *)

Module Scripts.

(** What a script does, in order. *)
Inductive action :=
| Echo (line : string)
| Cd (dir : string)
| Source (file : string)
| Run (cmd : string).

(** [status] is the exit status; [None] when the last command, a server,
    has not exited. *)
Record Outcome := mkOutcome { actions : list action; status : option nat }.

(** *** start-backend.sh *)

Record BackendEnv := mkBackendEnv {
  main_py_is_file : bool;       (* [ -f app/main.py ] *)
  venv_is_dir : bool;           (* [ -d .venv ] *)
  fastapi_importable : bool;    (* the python one-liner exits 0 *)
  uvicorn_exit : option nat     (* the exit status of uvicorn, if it exits *)
}.

Definition python_import_fastapi : string :=
  "python -c " +:+ CodeExamples.dq +:+ "import fastapi" +:+ CodeExamples.dq
  +:+ " 2>/dev/null".

Definition uvicorn_command : string :=
  "uvicorn app.main:app --reload --host 0.0.0.0 --port 8000".

Definition start_backend (e : BackendEnv) : Outcome :=
  let greeting := [Echo "🚀 Starting NeuraVault MCP Backend Server..."] in
  if negb (main_py_is_file e) then
    mkOutcome
      (greeting ++
       [Echo "❌ Backend files not found. Please run this script from the NeuraVault MCP project root."])
      (Some 1%nat)
  else if negb (venv_is_dir e) then
    mkOutcome
      (greeting ++
       [Echo "❌ Virtual environment not found. Please run './setup.sh' first."])
      (Some 1%nat)
  else
    let activated :=
      greeting ++
      [Echo "🐍 Activating virtual environment...";
       Source ".venv/bin/activate";
       Run python_import_fastapi] in
    if negb (fastapi_importable e) then
      mkOutcome
        (activated ++
         [Echo "❌ FastAPI not installed. Please run './setup.sh' first."])
        (Some 1%nat)
    else
      mkOutcome
        (activated ++
         [Echo "🎯 Starting FastAPI server...";
          Echo "📍 Backend will be available at: http://localhost:8000";
          Echo "📖 API Documentation: http://localhost:8000/docs";
          Echo "🔍 Interactive API: http://localhost:8000/redoc";
          Echo EmptyString;
          Echo "Press Ctrl+C to stop the server";
          Echo EmptyString;
          Run uvicorn_command])
        (uvicorn_exit e).

(** *** The frontend script *)

Record FrontendEnv := mkFrontendEnv {
  frontend_is_dir : bool;       (* [ -d frontend ] *)
  node_modules_is_dir : bool;   (* [ -d node_modules ], inside frontend *)
  npm_install_exit : nat;       (* the exit status of npm install *)
  npm_dev_exit : option nat     (* the exit status of npm run dev, if it exits *)
}.

Definition start_frontend (e : FrontendEnv) : Outcome :=
  let greeting := [Echo "🚀 Setting up NeuraVault MCP Frontend..."] in
  if negb (frontend_is_dir e) then
    mkOutcome
      (greeting ++
       [Echo "❌ Frontend directory not found. Please run this script from the NeuraVault MCP project root."])
      (Some 1%nat)
  else
    let launch :=
      [Echo "🎨 Starting development server...";
       Echo "📍 Frontend will be available at: http://localhost:5173";
       Echo "🔗 Make sure your NeuraVault MCP backend is running at: http://localhost:8000";
       Echo EmptyString;
       Echo "Press Ctrl+C to stop the server";
       Echo EmptyString;
       Run "npm run dev"] in
    if negb (node_modules_is_dir e) then
      let installed :=
        greeting ++
        [Cd "frontend"; Echo "📦 Installing dependencies..."; Run "npm install"] in
      if negb (npm_install_exit e =? 0)%nat then
        mkOutcome (installed ++ [Echo "❌ Failed to install dependencies"])
                  (Some 1%nat)
      else mkOutcome (installed ++ launch) (npm_dev_exit e)
    else
      mkOutcome
        (greeting ++
         [Cd "frontend"; Echo "✅ Dependencies already installed"] ++ launch)
        (npm_dev_exit e).

(** The error lines of a run are the ones that start with the cross
    mark. *)
Definition isErrorLine (a : action) : bool :=
  match a with
  | Echo line => String.prefix "❌" line
  | _ => false
  end.

Definition isCommand (a : action) : bool :=
  match a with
  | Run _ => true
  | _ => false
  end.

End Scripts.

(* ===================================================================== *)
(** * Properties *)
(* ===================================================================== *)

Module NavigationFacts.
Import Navigation.

Lemma Qgtb_true (x y : Q) : Qgtb x y = true ↔ (y < x)%Q.
Proof.
  unfold Qgtb. rewrite negb_true_iff, <- not_true_iff_false, Qle_bool_iff.
  split; [apply Qnot_le_lt | apply Qlt_not_le].
Qed.

Lemma Qgtb_false (x y : Q) : Qgtb x y = false ↔ (x <= y)%Q.
Proof. unfold Qgtb. rewrite negb_false_iff. apply Qle_bool_iff. Qed.

Lemma handle_MobileLinkClick (s s' : State) (i : nat) :
  handle (MobileLinkClick i) s = Some s' →
  ∃ item, navItems !! i = Some item ∧ md s = false ∧
          s' = mobileLinkClick item s.
Proof.
  unfold handle. destruct (md s) eqn:Hmd; [discriminate|].
  destruct (navItems !! i) as [item|] eqn:Hi; simpl; [|discriminate].
  intros [= <-]. eauto.
Qed.

Lemma closedIfWide_step (e : event) (s s' : State) :
  widens e s && isOpen s = false → closedIfWide s → handle e s = Some s' →
  closedIfWide s'.
Proof.
  intros He Hinv. unfold closedIfWide in *.
  destruct s as [o sc p m]. simpl in Hinv.
  destruct e as [y|w| |i|i|]; simpl in *.
  - intros [= <-]. exact Hinv.
  - intros [= <-]. simpl. intros ->.
    destruct m; [by apply Hinv|]. exact He.
  - destruct m; [discriminate|]. intros [= <-]. simpl. discriminate.
  - destruct m; [discriminate|].
    destruct (navItems !! i); simpl; [|discriminate].
    intros [= <-]. simpl. discriminate.
  - destruct m; [|discriminate].
    destruct (navItems !! i); simpl; [|discriminate].
    intros [= <-]. simpl. exact Hinv.
  - intros [= <-]. exact Hinv.
Qed.

Lemma closedIfWide_run (tr : list event) (s s' : State) :
  neverWidenedWhileOpen tr s = true →
  closedIfWide s → run tr s = Some s' → closedIfWide s'.
Proof.
  revert s. induction tr as [|e tr IH]; intros s Htr Hs; simpl.
  - by intros [= <-].
  - simpl in Htr. apply andb_true_iff in Htr as [He Htr].
    apply negb_true_iff in He.
    destruct (handle e s) as [s1|] eqn:H1; simpl; [|discriminate].
    apply IH; [exact Htr|]. by eapply closedIfWide_step.
Qed.

(** C1, as the code has it: a click on a link of the mobile menu
    closes the menu and navigates to the link's path, in every state;
    as long as the viewport has never been widened while the menu was
    open, every click on a link of the navigation list, desktop or
    mobile, leaves the menu closed; and in any state whatever, such a
    click leaves the menu closed exactly when the viewport is narrow or
    the menu was closed before the click. *)
Theorem nav_link_click_closes_menu :
  (∀ s s' i, handle (MobileLinkClick i) s = Some s' →
     isOpen s' = false ∧
     ∃ item, navItems !! i = Some item ∧ pathname s' = path item) ∧
  (∀ p wide tr s e s',
     neverWidenedWhileOpen tr (initial p wide) = true →
     run tr (initial p wide) = Some s →
     isNavLinkClick e = true →
     handle e s = Some s' →
     isOpen s' = false) ∧
  (∀ s e s',
     isNavLinkClick e = true →
     handle e s = Some s' →
     (isOpen s' = false ↔ md s = false ∨ isOpen s = false)).
Proof.
  assert (Hstate : ∀ s e s',
     isNavLinkClick e = true → handle e s = Some s' →
     (isOpen s' = false ↔ md s = false ∨ isOpen s = false)).
  { intros s e s' He H. destruct e as [y|w| |i|i|]; try discriminate.
    - apply handle_MobileLinkClick in H as (item & _ & Hmd & ->).
      split; [by left | reflexivity].
    - simpl in H. destruct (md s) eqn:Hs; [|discriminate].
      destruct (navItems !! i); simpl in H; [|discriminate].
      injection H as <-. simpl.
      split; [by right | intros [?|?]; [discriminate | assumption]]. }
  split; [|split; [|exact Hstate]].
  - intros s s' i H. apply handle_MobileLinkClick in H as (item & Hi & _ & ->).
    split; [reflexivity|]. exists item. split; [exact Hi | reflexivity].
  - intros p wide tr s e s' Htr Hrun He H.
    assert (Hinv : closedIfWide s).
    { apply (closedIfWide_run tr (initial p wide)); auto.
      intros _. reflexivity. }
    apply (Hstate s e s' He H).
    destruct (md s) eqn:Hs; [right; by apply Hinv | by left].
Qed.

Lemma nav_link_click_closes_menu_witness :
  (handle (MobileLinkClick 1) (mkState true false "/" false)
     = Some (mkState false false "/docs" false) ∧
   isOpen (mkState false false "/docs" false) = false) ∧
  (neverWidenedWhileOpen
     [MenuButtonClick; MobileLinkClick 1; Resize true; Scroll 80; Resize false;
      MenuButtonClick; MenuButtonClick; Resize true]
     (initial "/" false) = true ∧
   run [MenuButtonClick; MobileLinkClick 1; Resize true; Scroll 80; Resize false;
        MenuButtonClick; MenuButtonClick; Resize true]
       (initial "/" false) = Some (mkState false true "/docs" true) ∧
   handle (DesktopLinkClick 2) (mkState false true "/docs" true)
     = Some (mkState false true "/studio" true) ∧
   isOpen (mkState false true "/studio" true) = false) ∧
  (handle (DesktopLinkClick 1) (mkState true false "/" true)
     = Some (mkState true false "/docs" true) ∧
   (isOpen (mkState true false "/docs" true) = false ↔
    md (mkState true false "/" true) = false ∨
    isOpen (mkState true false "/" true) = false)).
Proof.
  split; [|split].
  - split; [reflexivity|].
    apply (proj1 nav_link_click_closes_menu
             (mkState true false "/" false) _ 1 eq_refl).
  - split; [reflexivity|]. split; [reflexivity|]. split; [reflexivity|].
    apply (proj1 (proj2 nav_link_click_closes_menu) "/" false
             [MenuButtonClick; MobileLinkClick 1; Resize true; Scroll 80;
              Resize false; MenuButtonClick; MenuButtonClick; Resize true]
             (mkState false true "/docs" true) (DesktopLinkClick 2) _);
      reflexivity.
  - split; [reflexivity|].
    apply (proj2 (proj2 nav_link_click_closes_menu)
             (mkState true false "/" true) (DesktopLinkClick 1) _);
      reflexivity.
Defined.

(** C1 fails for the desktop links: the menu is opened on a narrow
    viewport, the viewport is widened, and the desktop link Docs is
    clicked on the page [/]; the path changes and the menu state is
    still open. *)
Lemma desktop_link_click_keeps_menu_open :
  run [MenuButtonClick; Resize true] (initial "/" false)
    = Some (mkState true false "/" true) ∧
  isNavLinkClick (DesktopLinkClick 1) = true ∧
  handle (DesktopLinkClick 1) (mkState true false "/" true)
    = Some (mkState true false "/docs" true) ∧
  pathname (mkState true false "/docs" true)
    ≠ pathname (mkState true false "/" true) ∧
  isOpen (mkState true false "/docs" true) = true.
Proof. repeat split; try reflexivity. simpl. discriminate. Qed.

(** The same through the logo, with no change of width: after a visit
    of [/docs] the menu is opened and the logo is clicked. *)
Example logo_click_keeps_menu_open :
  run [MobileLinkClick 1; MenuButtonClick; LogoClick] (initial "/" false)
    = Some (mkState true false "/" false).
Proof. reflexivity. Qed.

(** The desktop links and the logo leave the menu state as it is. *)
Lemma other_links_keep_menu_state (s : State) (item : NavItem) :
  isOpen (desktopLinkClick item s) = isOpen s ∧
  isOpen (logoClick s) = isOpen s.
Proof. split; reflexivity. Qed.

(** C3: after a scroll event the scrolled flag is false for an offset
    of at most 50 and true for an offset above 50; it depends on the
    offset of that event alone, whatever the state before was, so that
    scrolling back under the threshold clears it; nothing else of the
    state changes. *)
Theorem handleScroll_threshold (y : Q) (s : State) :
  ((y <= 50)%Q → scrolled (handleScroll y s) = false) ∧
  ((50 < y)%Q → scrolled (handleScroll y s) = true) ∧
  (∀ s2, scrolled (handleScroll y s2) = scrolled (handleScroll y s)) ∧
  (∀ y0, scrolled (handleScroll y (handleScroll y0 s))
         = scrolled (handleScroll y s)) ∧
  handle (Scroll y) s = Some (handleScroll y s) ∧
  isOpen (handleScroll y s) = isOpen s ∧
  pathname (handleScroll y s) = pathname s.
Proof.
  repeat split; try reflexivity; simpl; intros H.
  - by apply Qgtb_false.
  - by apply Qgtb_true.
Qed.

Example scroll_down_then_up :
  scrolled <$> run [Scroll 120; Scroll (101 # 2); Scroll 50; Scroll 0]
                   (initial "/" true) = Some false ∧
  scrolled <$> run [Scroll 0; Scroll 50; Scroll (101 # 2)]
                   (initial "/" true) = Some true.
Proof. split; reflexivity. Qed.

Lemma class_suffix_inj (p a b : string) : p +:+ a = p +:+ b → a = b.
Proof. induction p as [|c p IH]; simpl; [auto|]. intros [= H]. auto. Qed.

Lemma link_active_iff (s : State) (item : NavItem) :
  (desktopLinkClass s item = desktopActiveClass ↔ path item = pathname s) ∧
  (desktopLinkUnderline s item = true ↔ path item = pathname s) ∧
  (mobileLinkClass s item = mobileActiveClass ↔ path item = pathname s).
Proof.
  unfold desktopLinkClass, desktopLinkUnderline, mobileLinkClass,
    desktopActiveClass, mobileActiveClass.
  destruct (String.eqb_spec (pathname s) (path item)) as [E|N].
  - repeat split; auto.
  - repeat split; intros H; try congruence; exfalso.
    + apply (class_suffix_inj
        "relative text-sm font-medium transition-colors hover:text-primary ")
        in H. discriminate.
    + apply (class_suffix_inj
        "block px-4 py-2 text-sm font-medium rounded-lg transition-colors ")
        in H. discriminate.
Qed.

End NavigationFacts.

Module AppFacts.
Import Navigation NavigationFacts.

(** C7: each entry of the navigation list (Home, Docs, Studio) is
    shown in its active style exactly when its path is the current
    path, in the desktop list and in the mobile one; the router knows
    the paths [/] and [/docs] only, so the Studio entry leads to
    [/studio], where no route matches and the page is rendered with an
    empty content area. *)
Theorem nav_entries_active_and_routes :
  navItems = [ mkNavItem "Home" "/"; mkNavItem "Docs" "/docs";
               mkNavItem "Studio" "/studio" ] ∧
  Forall (λ item, ∀ s,
    (desktopLinkClass s item = desktopActiveClass ↔ path item = pathname s) ∧
    (desktopLinkUnderline s item = true ↔ path item = pathname s) ∧
    (mobileLinkClass s item = mobileActiveClass ↔ path item = pathname s))
    navItems ∧
  App.path <$> App.routes = ["/"; "/docs"] ∧
  (∀ s, pathname <$> handle (DesktopLinkClick 2) (resize true s)
        = Some "/studio") ∧
  (∀ s, pathname <$> handle (MobileLinkClick 2) (resize false s)
        = Some "/studio") ∧
  App.Routes "/studio" = None ∧
  App.render "/studio" = [App.NavigationBar; App.FooterBar].
Proof.
  split; [reflexivity|]. split.
  - apply Forall_forall. intros item _ s. apply link_active_iff.
  - repeat split; reflexivity.
Qed.

Example registered_paths_render_their_page :
  App.render "/" = [App.NavigationBar; App.Content App.HomePage; App.FooterBar] ∧
  App.render "/docs" = [App.NavigationBar; App.Content App.DocsPage; App.FooterBar] ∧
  App.render "/Docs/" = [App.NavigationBar; App.Content App.DocsPage; App.FooterBar] ∧
  App.render "/docs/api" = [App.NavigationBar; App.FooterBar].
Proof. repeat split; reflexivity. Qed.

End AppFacts.

Module CodeExamplesFacts.
Import CodeExamples.
Local Open Scope nat_scope.

(** *** The handlers, as equations *)

Lemma resume_fulfilled (w : PendingWrite) (s : State) :
  copyToClipboard_resume w (Normal ()) s =
  (mkState (activeTab s) (<[caller_id w := true]> (copiedStates s))
           (inflight s)
           (timers s ++ [mkTimer (now s + 2000) (caller_id w)])
           (now s) (text w) (console s) (uncaught s),
   Normal ()).
Proof. reflexivity. Qed.

Lemma resume_rejected (w : PendingWrite) (err : string) (s : State) :
  copyToClipboard_resume w (Throw err) s =
  (mkState (activeTab s) (copiedStates s) (inflight s) (timers s) (now s)
           (clipboard s) (console s ++ [("Failed to copy text: ", err)])
           (uncaught s),
   Normal ()).
Proof. reflexivity. Qed.

Lemma handle_TabClick (i : nat) (s s' : State) :
  handle (TabClick i) s = Some s' ↔
  ∃ ex, examples !! i = Some ex ∧ s' = setActiveTab (id ex) s.
Proof.
  unfold handle. destruct (examples !! i) as [ex|]; simpl.
  - split; [intros [= <-]; eauto | intros (? & [= <-] & ->); reflexivity].
  - split; [discriminate | intros (? & [=] & _)].
Qed.

Lemma handle_CopyClick (s s' : State) :
  handle CopyClick s = Some s' ↔
  ∃ ex, activeExample s = Some ex ∧ s' = copyToClipboard (code ex) (id ex) s.
Proof.
  unfold handle. destruct (activeExample s) as [ex|]; simpl.
  - split; [intros [= <-]; eauto | intros (? & [= <-] & ->); reflexivity].
  - split; [discriminate | intros (? & [=] & _)].
Qed.

Lemma handle_ClipboardSettle (k : nat) (r : completion ()) (s s' : State) :
  handle (ClipboardSettle k r) s = Some s' ↔
  ∃ w, inflight s !! k = Some w ∧
       s' = turn (copyToClipboard_resume w r) (dropWrite k s).
Proof.
  unfold handle. destruct (inflight s !! k) as [w|]; simpl.
  - split; [intros [= <-]; eauto | intros (? & [= <-] & ->); reflexivity].
  - split; [discriminate | intros (? & [=] & _)].
Qed.

Lemma handle_TimerFire (k : nat) (s s' : State) :
  handle (TimerFire k) s = Some s' ↔
  ∃ t, timers s !! k = Some t ∧ due t ≤ now s ∧
       s' = turn (timerCallback t) (dropTimer k s).
Proof.
  unfold handle. destruct (timers s !! k) as [t|]; simpl.
  - destruct (decide (due t ≤ now s)) as [Hd|Hd].
    + split; [intros [= <-]; eauto | intros (? & [= <-] & _ & ->); reflexivity].
    + split; [discriminate | intros (? & [= <-] & ? & _); contradiction].
  - split; [discriminate | intros (? & [=] & _)].
Qed.

Lemma run_app (tr1 tr2 : list event) (s : State) :
  run (tr1 ++ tr2) s = run tr1 s ≫= run tr2.
Proof.
  revert s. induction tr1 as [|e tr1 IH]; intros s; simpl; [reflexivity|].
  destruct (handle e s) as [s1|]; simpl; [apply IH | reflexivity].
Qed.

(** *** The active example *)

Lemma find_or_first_defined {A} (f : A → bool) (l : list A) :
  l ≠ [] →
  ∃ x, match List.find f l with Some x => Some x | None => l !! 0 end = Some x
       ∧ x ∈ l
       ∧ ((∃ y, y ∈ l ∧ f y = true) → f x = true)
       ∧ ((∀ y, y ∈ l → f y = false) → l !! 0 = Some x).
Proof.
  intros Hl. destruct (List.find f l) as [x|] eqn:Hf.
  - apply find_some in Hf as [Hin Hx]. exists x.
    repeat split; auto.
    + by apply list_elem_of_In.
    + intros Hall. apply list_elem_of_In in Hin.
      rewrite (Hall x Hin) in Hx. discriminate.
  - destruct l as [|d l]; [contradiction|]. exists d.
    repeat split; auto.
    + apply list_elem_of_here.
    + intros (y & Hy & Hfy). apply list_elem_of_In in Hy.
      rewrite (find_none _ _ Hf y Hy) in Hfy. discriminate.
Qed.

Lemma examples_nonempty : examples ≠ [].
Proof. unfold examples. discriminate. Qed.

Lemma example_ids : id <$> examples = ["multi-llm"; "python-api"; "openai-plugin"].
Proof. reflexivity. Qed.

(** The code samples have the lengths of the source's template
    literals. *)
Example code_lengths :
  String.length <$> (code <$> examples) = [994; 813; 504].
Proof. reflexivity. Qed.

(** C10: whatever [activeTab] holds, the active example is defined and
    is one of the examples: the one whose id is [activeTab] when there
    is one, the first example when there is none; so the code block
    renders without reading a missing example. *)
Theorem activeExample_always_defined (s : State) :
  ∃ ex, activeExample s = Some ex ∧ ex ∈ examples ∧
        (activeTab s ∈ id <$> examples → id ex = activeTab s) ∧
        (activeTab s ∉ id <$> examples → examples !! 0 = Some ex) ∧
        renderCodeBlock s =
          Normal (mkCodeBlock (icon ex) (title ex) (description ex)
                    (if copied s (id ex) then CheckIcon else CopyIconPlain)
                    (code ex)).
Proof.
  destruct (find_or_first_defined
              (λ ex, String.eqb (id ex) (activeTab s)) examples
              examples_nonempty) as (ex & Hex & Hin & Hhit & Hmiss).
  exists ex. unfold renderCodeBlock, activeExample. rewrite Hex.
  repeat split; auto.
  - intros Htab. apply list_elem_of_fmap in Htab as (y & Hy & Hyin).
    apply String.eqb_eq, Hhit. exists y. split; [exact Hyin|].
    apply String.eqb_eq. congruence.
  - intros Htab. apply Hmiss. intros y Hy. apply String.eqb_neq.
    intros E. apply Htab. rewrite <- E. apply list_elem_of_fmap. eauto.
Qed.

Example unknown_tab_falls_back_to_first :
  id <$> activeExample (mkState "studio" ∅ [] [] 0 "" [] []) = Some "multi-llm" ∧
  id <$> activeExample (mkState "python-api" ∅ [] [] 0 "" [] []) = Some "python-api".
Proof. split; reflexivity. Qed.

(** *** The active tab *)

Lemma lookup_example_id (i : nat) (ex : Example) :
  examples !! i = Some ex → id ex ∈ id <$> examples.
Proof.
  intros Hex. apply list_elem_of_fmap. exists ex. split; [reflexivity|].
  eapply list_elem_of_lookup_2, Hex.
Qed.

Lemma handle_activeTab (e : event) (s s' : State) :
  handle e s = Some s' →
  activeTab s' = activeTab s ∨ activeTab s' ∈ id <$> examples.
Proof.
  destruct e as [i| |k r|d|k]; intros H.
  - apply handle_TabClick in H as (ex & Hex & ->). right.
    exact (lookup_example_id i ex Hex).
  - apply handle_CopyClick in H as (ex & _ & ->). by left.
  - apply handle_ClipboardSettle in H as (w & _ & ->). left.
    destruct r as [[]|err]; reflexivity.
  - injection H as <-. by left.
  - apply handle_TimerFire in H as (t & _ & _ & ->). by left.
Qed.

Lemma run_activeTab (tr : list event) (s s' : State) :
  activeTab s ∈ id <$> examples → run tr s = Some s' →
  activeTab s' ∈ id <$> examples.
Proof.
  revert s. induction tr as [|e tr IH]; intros s Hs; simpl.
  - by intros [= <-].
  - destruct (handle e s) as [s1|] eqn:He; simpl; [|discriminate].
    apply IH. destruct (handle_activeTab _ _ _ He) as [->|]; auto.
Qed.

(** C6: the component is mounted with the id of the first example as
    its active tab, a tab click sets the active tab to the id of one
    of the examples, and so in every reachable state the active tab is
    one of the three declared ids. *)
Theorem activeTab_is_declared :
  id <$> examples = ["multi-llm"; "python-api"; "openai-plugin"] ∧
  (∀ t0 clip, ∃ s0, mount t0 clip = Normal s0 ∧
                    Some (activeTab s0) = id <$> (examples !! 0)) ∧
  (∀ s i s', handle (TabClick i) s = Some s' →
             activeTab s' ∈ id <$> examples) ∧
  (∀ s, reachable s → activeTab s ∈ id <$> examples).
Proof.
  split; [reflexivity|]. split; [|split].
  - intros t0 clip. eexists. split; reflexivity.
  - intros s i s' H. apply handle_TabClick in H as (ex & Hex & ->).
    exact (lookup_example_id i ex Hex).
  - intros s (t0 & clip & s0 & tr & Hm & Hr).
    apply (run_activeTab tr s0); [|exact Hr].
    injection Hm as <-. simpl. apply list_elem_of_here.
Qed.

(** C8: selecting a tab twice is selecting it once: the second click
    on the same tab button changes nothing at all, in particular none
    of the pending timers and none of the copy flags. *)
Theorem selectExample_idempotent (s : State) (tab : string) :
  setActiveTab tab (setActiveTab tab s) = setActiveTab tab s ∧
  activeTab (setActiveTab tab s) = tab ∧
  timers (setActiveTab tab s) = timers s ∧
  inflight (setActiveTab tab s) = inflight s ∧
  copiedStates (setActiveTab tab s) = copiedStates s ∧
  now (setActiveTab tab s) = now s ∧
  (∀ i s1, handle (TabClick i) s = Some s1 →
           handle (TabClick i) s1 = Some s1 ∧ timers s1 = timers s).
Proof.
  repeat split; try reflexivity.
  - apply handle_TabClick in H as (ex & Hex & ->).
    apply handle_TabClick. exists ex. split; [exact Hex | reflexivity].
  - apply handle_TabClick in H as (ex & Hex & ->). reflexivity.
Qed.

(** *** Copy, tab switch, reset *)

Lemma handle_CopyClick_eq (s : State) (ex : Example) :
  activeExample s = Some ex →
  handle CopyClick s = Some (copyToClipboard (code ex) (id ex) s).
Proof. intros H. apply handle_CopyClick. eauto. Qed.

Lemma handle_ClipboardSettle_eq (k : nat) (r : completion ()) (s : State)
    (w : PendingWrite) :
  inflight s !! k = Some w →
  handle (ClipboardSettle k r) s
    = Some (turn (copyToClipboard_resume w r) (dropWrite k s)).
Proof. intros H. apply handle_ClipboardSettle. eauto. Qed.


Lemma run_cons (e : event) (tr : list event) (s : State) :
  run (e :: tr) s = handle e s ≫= run tr.
Proof. reflexivity. Qed.

Lemma setActiveTab_same (s : State) : setActiveTab (activeTab s) s = s.
Proof. by destruct s. Qed.

(** Tab clicks change the active tab and nothing else. *)
Lemma run_TabClicks (js : list nat) (s : State) :
  Forall (λ j, j < length examples) js →
  ∃ tab, run (TabClick <$> js) s = Some (setActiveTab tab s).
Proof.
  intros Hjs. revert s. induction Hjs as [|j js Hj _ IH]; intros s.
  - exists (activeTab s). simpl. by rewrite setActiveTab_same.
  - apply lookup_lt_is_Some_2 in Hj as [ex Hex].
    destruct (IH (setActiveTab (id ex) s)) as [tab Htab].
    exists tab. rewrite fmap_cons, run_cons.
    rewrite (proj2 (handle_TabClick j s _) (ex_intro _ ex (conj Hex eq_refl))).
    simpl. exact Htab.
Qed.

Lemma delete_last_appended {A} (l : list A) (x : A) :
  delete (length l) (l ++ [x]) = l.
Proof. induction l as [|a l IH]; simpl; [reflexivity | by rewrite IH]. Qed.

Lemma lookup_last_appended {A} (l : list A) (x : A) :
  (l ++ [x]) !! length l = Some x.
Proof. by apply list_lookup_middle. Qed.

(** A fired timer clears the flag of the id it captured, whatever the
    active tab is by then, and no other flag. *)
Lemma timer_fire_resets_captured_id (k : nat) (s s' : State) :
  handle (TimerFire k) s = Some s' →
  ∃ t, timers s !! k = Some t ∧ due t ≤ now s ∧
       copiedStates s' = <[captured_id t := false]> (copiedStates s) ∧
       timers s' = delete k (timers s) ∧
       activeTab s' = activeTab s ∧ now s' = now s.
Proof.
  intros H. apply handle_TimerFire in H as (t & Ht & Hd & ->).
  exists t. repeat split; auto.
Qed.

(** C5: a copy is started by a click on the copy button, the user may
    click tabs while the write is pending, and the write is rejected.
    The click hands the write to the platform and changes nothing
    else; the rejection is caught and logged.  After the whole
    invocation the copy flags, the timers, the pending writes, the
    clock and the clipboard are what they were before the click, the
    console has one more entry, and nothing was thrown out of a
    handler.  The same holds of the rejection of any pending write in
    any state. *)
Theorem clipboard_failure_leaves_state (s : State) (err : string) :
  (∀ js, Forall (λ i, i < length examples) js →
     ∃ ex tab,
       activeExample s = Some ex ∧
       handle CopyClick s =
         Some (mkState (activeTab s) (copiedStates s)
                 (inflight s ++ [mkWrite (code ex) (id ex)]) (timers s)
                 (now s) (clipboard s) (console s) (uncaught s)) ∧
       run (CopyClick :: (TabClick <$> js) ++
            [ClipboardSettle (length (inflight s)) (Throw err)]) s =
         Some (mkState tab (copiedStates s) (inflight s) (timers s) (now s)
                 (clipboard s)
                 (console s ++ [("Failed to copy text: ", err)])
                 (uncaught s)) ∧
       (js = [] → tab = activeTab s)) ∧
  (∀ k s', handle (ClipboardSettle k (Throw err)) s = Some s' →
     copiedStates s' = copiedStates s ∧
     timers s' = timers s ∧
     activeTab s' = activeTab s ∧
     clipboard s' = clipboard s ∧
     now s' = now s ∧
     console s' = console s ++ [("Failed to copy text: ", err)] ∧
     uncaught s' = uncaught s ∧
     ∃ w, inflight s !! k = Some w ∧ inflight s' = delete k (inflight s) ∧
          snd (copyToClipboard_resume w (Throw err) (dropWrite k s))
          = Normal ()).
Proof.
  split.
  - intros js Hjs.
    destruct (find_or_first_defined
                (λ ex, String.eqb (id ex) (activeTab s)) examples
                examples_nonempty) as (ex & Hex & _).
    assert (Hact : activeExample s = Some ex).
    { unfold activeExample. by rewrite Hex. }
    set (sA := copyToClipboard (code ex) (id ex) s).
    assert (Htabs : ∃ tab, run (TabClick <$> js) sA = Some (setActiveTab tab sA)
                           ∧ (js = [] → tab = activeTab s)).
    { destruct js as [|j js].
      - exists (activeTab s). split; [|reflexivity]. simpl.
        by rewrite <- (setActiveTab_same sA).
      - destruct (run_TabClicks (j :: js) sA Hjs) as [tab Htab].
        exists tab. split; [exact Htab | discriminate]. }
    destruct Htabs as (tab & H1 & Htab).
    exists ex, tab. split; [exact Hact|].
    split; [by apply handle_CopyClick_eq|]. split; [|exact Htab].
    rewrite run_cons, (handle_CopyClick_eq s ex Hact).
    change (run ((TabClick <$> js) ++
                 [ClipboardSettle (length (inflight s)) (Throw err)]) sA
            = Some (mkState tab (copiedStates s) (inflight s) (timers s)
                      (now s) (clipboard s)
                      (console s ++ [("Failed to copy text: ", err)])
                      (uncaught s))).
    rewrite run_app, H1.
    change (run [ClipboardSettle (length (inflight s)) (Throw err)]
                (setActiveTab tab sA) = Some (mkState tab (copiedStates s)
                      (inflight s) (timers s) (now s) (clipboard s)
                      (console s ++ [("Failed to copy text: ", err)])
                      (uncaught s))).
    rewrite run_cons,
      (handle_ClipboardSettle_eq _ _ _ (mkWrite (code ex) (id ex)))
      by apply lookup_last_appended.
    cbn. unfold dropWrite. cbn. by rewrite delete_last_appended.
  - intros k s' H. apply handle_ClipboardSettle in H as (w & Hw & ->).
    repeat split; try reflexivity. exists w. repeat split; auto.
Qed.

Lemma clipboard_failure_leaves_state_witness :
  let s := mkState "multi-llm" {[ "python-api" := true ]}
             [mkWrite code_python_api "python-api"]
             [mkTimer 2000 "python-api"] 7 code_python_api [] [] in
  (∃ ex tab,
     activeExample s = Some ex ∧
     handle CopyClick s =
       Some (mkState (activeTab s) (copiedStates s)
               (inflight s ++ [mkWrite (code ex) (id ex)]) (timers s)
               (now s) (clipboard s) (console s) (uncaught s)) ∧
     run (CopyClick :: (TabClick <$> [2; 1]) ++
          [ClipboardSettle (length (inflight s)) (Throw "NotAllowedError")]) s =
       Some (mkState tab (copiedStates s) (inflight s) (timers s) (now s)
               (clipboard s)
               (console s ++ [("Failed to copy text: ", "NotAllowedError")])
               (uncaught s)) ∧
     ([2; 1] = [] → tab = activeTab s)) ∧
  handle (ClipboardSettle 0 (Throw "NotAllowedError")) s
    = Some (mkState "multi-llm" {[ "python-api" := true ]} []
              [mkTimer 2000 "python-api"] 7 code_python_api
              [("Failed to copy text: ", "NotAllowedError")] []) ∧
  copiedStates (mkState "multi-llm" {[ "python-api" := true ]} []
              [mkTimer 2000 "python-api"] 7 code_python_api
              [("Failed to copy text: ", "NotAllowedError")] [])
    = copiedStates s.
Proof.
  intros s. split; [|split; [reflexivity|]].
  - apply (proj1 (clipboard_failure_leaves_state s "NotAllowedError") [2; 1]).
    repeat constructor.
  - apply (proj2 (clipboard_failure_leaves_state s "NotAllowedError") 0 _
             eq_refl).
Defined.

Example rejected_copy_from_the_click :
  (λ s, (copiedStates s !! "multi-llm", timers s, inflight s, clipboard s,
         console s, uncaught s)) <$>
    run [CopyClick; ClipboardSettle 0 (Throw "NotAllowedError")]
        (mkState "multi-llm" ∅ [] [] 0 "old" [] [])
  = Some (None, [], [], "old",
          [("Failed to copy text: ", "NotAllowedError")], []).
Proof. reflexivity. Qed.



Example reset_after_tab_switch :
  (λ s, (activeTab s, copiedStates s !! "multi-llm",
         copiedStates s !! "python-api")) <$>
  run [CopyClick; ClipboardSettle 0 (Normal ()); TabClick 1;
       CopyClick; ClipboardSettle 0 (Normal ()); Tick 2000; TimerFire 0]
      (mkState "multi-llm" ∅ [] [] 0 "" [] [])
  = Some ("python-api", Some false, Some true).
Proof. reflexivity. Qed.

(** *** How long a copy flag stays set *)

Lemma copiedSince_step (t0 : nat) (x : string) (e : event) (s s' : State) :
  copiedSince t0 x s → handle e s = Some s' → copiedSince t0 x s'.
Proof.
  intros (Hnow & Htm & Hflag) H.
  destruct e as [i| |k r|d|k].
  - apply handle_TabClick in H as (ex & _ & ->). by repeat split.
  - apply handle_CopyClick in H as (ex & _ & ->). by repeat split.
  - apply handle_ClipboardSettle in H as (w & _ & ->).
    destruct r as [[]|err]; [|by repeat split].
    repeat split; simpl; [exact Hnow| |].
    + apply Forall_app. split; [exact Htm|].
      apply Forall_singleton. simpl. lia.
    + intros Hlt. destruct (decide (caller_id w = x)) as [->|Hne].
      * apply lookup_insert_eq.
      * rewrite lookup_insert_ne by exact Hne. auto.
  - injection H as <-. repeat split; simpl; [lia|exact Htm|].
    intros Hlt. apply Hflag. lia.
  - apply handle_TimerFire in H as (t & Ht & Hd & ->).
    repeat split; simpl; [exact Hnow| |].
    + by apply Forall_delete.
    + intros Hlt. destruct (decide (captured_id t = x)) as [Hx|Hne].
      * pose proof (Forall_lookup_1 _ _ _ _ Htm Ht Hx). lia.
      * rewrite lookup_insert_ne by exact Hne. auto.
Qed.

Lemma copiedSince_run (t0 : nat) (x : string) (tr : list event) (s s' : State) :
  copiedSince t0 x s → run tr s = Some s' → copiedSince t0 x s'.
Proof.
  revert s. induction tr as [|e tr IH]; intros s Hs; simpl.
  - by intros [= <-].
  - destruct (handle e s) as [s1|] eqn:He; simpl; [|discriminate].
    apply IH. eapply copiedSince_step; eauto.
Qed.

(** A set flag is cleared by nothing but the firing of a timer that
    captured its id. *)
Lemma flag_cleared_only_by_timer (x : string) (e : event) (s s' : State) :
  handle e s = Some s' →
  copiedStates s !! x = Some true →
  copiedStates s' !! x ≠ Some true →
  ∃ j t, e = TimerFire j ∧ timers s !! j = Some t ∧ captured_id t = x ∧
         due t ≤ now s ∧ copiedStates s' !! x = Some false.
Proof.
  intros H Hset Hclr. destruct e as [i| |k r|d|k].
  - apply handle_TabClick in H as (ex & _ & ->). contradiction.
  - apply handle_CopyClick in H as (ex & _ & ->). contradiction.
  - apply handle_ClipboardSettle in H as (w & _ & ->).
    destruct r as [[]|err]; [|contradiction]. exfalso. apply Hclr. simpl.
    destruct (decide (caller_id w = x)) as [->|Hne].
    + apply lookup_insert_eq.
    + by rewrite lookup_insert_ne.
  - injection H as <-. contradiction.
  - apply handle_TimerFire in H as (t & Ht & Hd & ->). simpl in Hclr.
    destruct (decide (captured_id t = x)) as [Hx|Hne].
    + exists k, t. repeat split; auto. simpl. rewrite Hx.
      apply lookup_insert_eq.
    + rewrite lookup_insert_ne in Hclr by exact Hne. contradiction.
Qed.

(** C4, as the code has it: when the write of a copy of [x] is
    fulfilled, the flag of [x] is set at once and a reset of [x] due
    2000 ms later is scheduled; when that timer fires, which is no
    earlier than due, the flag is cleared; and the only event that ever
    clears the flag is the firing of a timer that captured [x].  If
    moreover no reset of [x] that is due sooner is pending when the
    write is fulfilled, then, whatever happens next, every reset of [x]
    is due 2000 ms after the copy or later and the flag is set for as
    long as fewer than 2000 ms have passed. *)
Theorem copied_flag_holds_for_2000ms (s : State) (k : nat) (w : PendingWrite) :
  inflight s !! k = Some w →
  ∃ s1, handle (ClipboardSettle k (Normal ())) s = Some s1 ∧
    copiedStates s1 !! caller_id w = Some true ∧
    now s1 = now s ∧
    timers s1 = timers s ++ [mkTimer (now s + 2000) (caller_id w)] ∧
    (∀ tr s2 j s3, run tr s1 = Some s2 →
       timers s2 !! j = Some (mkTimer (now s + 2000) (caller_id w)) →
       handle (TimerFire j) s2 = Some s3 →
       now s + 2000 ≤ now s3 ∧
       copiedStates s3 !! caller_id w = Some false) ∧
    (∀ tr s2 e s3, run tr s1 = Some s2 →
       handle e s2 = Some s3 →
       copiedStates s2 !! caller_id w = Some true →
       copiedStates s3 !! caller_id w ≠ Some true →
       ∃ j t, e = TimerFire j ∧ timers s2 !! j = Some t ∧
              captured_id t = caller_id w ∧ due t ≤ now s2 ∧
              copiedStates s3 !! caller_id w = Some false) ∧
    (Forall (λ t, captured_id t = caller_id w → now s + 2000 ≤ due t)
            (timers s) →
     (∀ tr s2, run tr s1 = Some s2 →
        Forall (λ t, captured_id t = caller_id w → now s + 2000 ≤ due t)
               (timers s2)) ∧
     (∀ tr s2, run tr s1 = Some s2 → now s2 < now s + 2000 →
        copiedStates s2 !! caller_id w = Some true)).
Proof.
  intros Hw.
  set (s1 := turn (copyToClipboard_resume w (Normal ())) (dropWrite k s)).
  exists s1.
  split; [by apply handle_ClipboardSettle_eq|].
  split; [apply lookup_insert_eq|].
  split; [reflexivity|]. split; [reflexivity|]. split; [|split].
  - intros tr s2 j s3 _ Hj Hfire.
    apply timer_fire_resets_captured_id in Hfire
      as (t & Ht & Hd & -> & _ & _ & ->).
    rewrite Hj in Ht. injection Ht as <-. simpl in *.
    split; [exact Hd | apply lookup_insert_eq].
  - intros tr s2 e s3 _ He Hset Hclr.
    destruct (flag_cleared_only_by_timer _ _ _ _ He Hset Hclr)
      as (j & t & -> & Ht & Hx & Hd & Hfalse).
    exists j, t. repeat split; auto.
  - intros Hfree.
    assert (Hsince : copiedSince (now s) (caller_id w) s1).
    { repeat split; simpl; [lia| |intros _; apply lookup_insert_eq].
      apply Forall_app. split; [exact Hfree|].
      apply Forall_singleton. simpl. lia. }
    split; intros tr s2 Hrun.
    + by eapply copiedSince_run in Hrun as (_ & Htm & _); [|exact Hsince].
    + intros Hlt.
      eapply copiedSince_run in Hrun as (_ & _ & Hflag); [|exact Hsince].
      by apply Hflag.
Qed.

Lemma copied_flag_holds_for_2000ms_witness :
  let s := mkState "multi-llm" {[ "python-api" := true ]}
             [mkWrite "text" "multi-llm"] [mkTimer 1500 "python-api"] 10
             EmptyString [] [] in
  let w := mkWrite "text" "multi-llm" in
  inflight s !! 0 = Some w ∧
  Forall (λ t, captured_id t = caller_id w → now s + 2000 ≤ due t) (timers s) ∧
  ∃ s1, handle (ClipboardSettle 0 (Normal ())) s = Some s1 ∧
    copiedStates s1 !! caller_id w = Some true ∧
    now s1 = now s ∧
    timers s1 = timers s ++ [mkTimer (now s + 2000) (caller_id w)] ∧
    (∀ tr s2 j s3, run tr s1 = Some s2 →
       timers s2 !! j = Some (mkTimer (now s + 2000) (caller_id w)) →
       handle (TimerFire j) s2 = Some s3 →
       now s + 2000 ≤ now s3 ∧
       copiedStates s3 !! caller_id w = Some false) ∧
    (∀ tr s2 e s3, run tr s1 = Some s2 →
       handle e s2 = Some s3 →
       copiedStates s2 !! caller_id w = Some true →
       copiedStates s3 !! caller_id w ≠ Some true →
       ∃ j t, e = TimerFire j ∧ timers s2 !! j = Some t ∧
              captured_id t = caller_id w ∧ due t ≤ now s2 ∧
              copiedStates s3 !! caller_id w = Some false) ∧
    (Forall (λ t, captured_id t = caller_id w → now s + 2000 ≤ due t)
            (timers s) →
     (∀ tr s2, run tr s1 = Some s2 →
        Forall (λ t, captured_id t = caller_id w → now s + 2000 ≤ due t)
               (timers s2)) ∧
     (∀ tr s2, run tr s1 = Some s2 → now s2 < now s + 2000 →
        copiedStates s2 !! caller_id w = Some true)).
Proof.
  intros s w. split; [reflexivity|].
  split; [repeat constructor; simpl; discriminate|].
  apply (copied_flag_holds_for_2000ms s 0 w). reflexivity.
Defined.

(** C4 fails when the same example is copied twice within 2000 ms: the
    first copy resolves at time 0, the second at 1500, when the flag
    is set again; at 2000 the timer of the first copy fires and clears
    the flag, 500 ms after the second copy, whose own timer is still
    pending. *)
Lemma second_copy_is_reset_early :
  (λ s, (now s, copiedStates s !! "multi-llm", timers s)) <$>
    run [CopyClick; ClipboardSettle 0 (Normal ()); Tick 1500;
         CopyClick; ClipboardSettle 0 (Normal ())]
        (mkState "multi-llm" ∅ [] [] 0 "" [] [])
  = Some (1500, Some true,
          [mkTimer 2000 "multi-llm"; mkTimer 3500 "multi-llm"]) ∧
  (λ s, (now s, copiedStates s !! "multi-llm", timers s)) <$>
    run [CopyClick; ClipboardSettle 0 (Normal ()); Tick 1500;
         CopyClick; ClipboardSettle 0 (Normal ());
         Tick 500; TimerFire 0]
        (mkState "multi-llm" ∅ [] [] 0 "" [] [])
  = Some (2000, Some false, [mkTimer 3500 "multi-llm"]) ∧
  mount 0 "" = Normal (mkState "multi-llm" ∅ [] [] 0 "" [] []) ∧
  2000 < 1500 + 2000.
Proof. repeat split. lia. Qed.

End CodeExamplesFacts.

Module MotionFacts.
Import Motion.

Lemma update_once (b : bool) (o : Observer) :
  consistent o →
  consistent (onIntersectionUpdate (mkViewport true) b o) ∧
  visible (onIntersectionUpdate (mkViewport true) b o) = visible o || b.
Proof.
  destruct o as [[] [] []], b; unfold consistent; simpl;
    intros [H1 H2]; try discriminate; auto;
    try (specialize (H2 eq_refl); discriminate).
Qed.

Lemma observe_once (hist : list bool) (o : Observer) :
  consistent o →
  consistent (observe (mkViewport true) hist o) ∧
  visible (observe (mkViewport true) hist o) = visible o || existsb id hist.
Proof.
  revert o. induction hist as [|b hist IH]; intros o Ho.
  - simpl. by rewrite orb_false_r.
  - destruct (update_once b o Ho) as [Hc Hv].
    destruct (IH _ Hc) as [Hc' Hv'].
    change (observe (mkViewport true) (b :: hist) o)
      with (observe (mkViewport true) hist
              (onIntersectionUpdate (mkViewport true) b o)).
    split; [exact Hc'|].
    rewrite Hv', Hv. simpl. by rewrite orb_assoc.
Qed.

Lemma existsb_id_true (hist : list bool) :
  existsb id hist = true ↔ true ∈ hist.
Proof.
  rewrite existsb_exists. split.
  - intros ([] & Hin & Hx); [|discriminate]. by apply list_elem_of_In.
  - intros Hin. exists true. split; [by apply list_elem_of_In | reflexivity].
Qed.

Lemma mounted_consistent : consistent mounted.
Proof. split; [reflexivity | discriminate]. Qed.

(** C9: every animated element is declared with [once]; its
    visibility flag is unset when it is mounted, is set by the first
    intersection entry that reports it in the viewport, and from then
    on stays set whatever entries follow: after a scroll history the
    flag is set exactly when some entry of the history was
    intersecting. *)
Theorem visibility_is_one_shot_latch :
  Forall (λ a,
    once (viewport a) = true ∧
    visible mounted = false ∧
    (∀ hist, visible (observe (viewport a) hist mounted) = true ↔ true ∈ hist) ∧
    (∀ hist, visible (observe (viewport a) (hist ++ [true]) mounted) = true) ∧
    (∀ hist later,
       visible (observe (viewport a) hist mounted) = true →
       visible (observe (viewport a) (hist ++ later) mounted) = true))
    animatedElements.
Proof.
  assert (Hchar : ∀ hist,
    visible (observe (mkViewport true) hist mounted) = true ↔ true ∈ hist).
  { intros hist.
    destruct (observe_once hist mounted mounted_consistent) as [_ ->].
    simpl. apply existsb_id_true. }
  assert (Honce : Forall (λ a, viewport a = mkViewport true) animatedElements)
    by repeat constructor.
  eapply Forall_impl; [exact Honce|]. simpl. intros a ->.
  split; [reflexivity|]. split; [reflexivity|]. split; [exact Hchar|]. split.
  - intros hist. apply Hchar, elem_of_app. right. apply list_elem_of_here.
  - intros hist later H. apply Hchar, elem_of_app. left. by apply Hchar.
Qed.

(** Without [once] the flag follows the intersection and is cleared
    when the element leaves the viewport. *)
Example without_once_the_flag_is_cleared :
  visible (observe (mkViewport false) [true; false] mounted) = false ∧
  visible (observe (mkViewport true) [true; false] mounted) = true.
Proof. split; reflexivity. Qed.

End MotionFacts.


Module NavigationMore.
Import Navigation NavigationView.
Local Open Scope nat_scope.

Lemma setIsOpen_same (s : State) : setIsOpen (isOpen s) s = s.
Proof. by destruct s. Qed.

(** X1: on a narrow viewport, [n] clicks on the menu button leave the
    menu as it was when [n] is even and flip it when [n] is odd; the
    scrolled flag, the path and the width are untouched. *)
Theorem menu_button_parity (n : nat) (s : State) :
  md s = false →
  run (repeat MenuButtonClick n) s
    = Some (setIsOpen (xorb (isOpen s) (Nat.odd n)) s).
Proof.
  revert s. induction n as [|n IH]; intros s Hmd.
  - simpl. by rewrite xorb_false_r, setIsOpen_same.
  - change (repeat MenuButtonClick (S n))
      with (MenuButtonClick :: repeat MenuButtonClick n).
    change (run (MenuButtonClick :: repeat MenuButtonClick n) s)
      with (handle MenuButtonClick s ≫= run (repeat MenuButtonClick n)).
    unfold handle. rewrite Hmd. simpl.
    rewrite (IH (menuButtonClick s) Hmd).
    rewrite Nat.odd_succ, <- Nat.negb_odd.
    destruct s as [o sc p w]. simpl. by destruct o, (Nat.odd n).
Qed.

Lemma menu_button_parity_witness :
  md (mkState false true "/docs" false) = false ∧
  run (repeat MenuButtonClick 3) (mkState false true "/docs" false)
    = Some (setIsOpen (xorb false (Nat.odd 3)) (mkState false true "/docs" false)).
Proof.
  split; [reflexivity|].
  apply (menu_button_parity 3 (mkState false true "/docs" false)).
  reflexivity.
Defined.

(** X2: whatever the current path is, at most one entry of the
    navigation list is rendered with the underline; there is one
    exactly when the path is one of [/], [/docs], [/studio], and it is
    the entry with that path. *)
Theorem at_most_one_entry_underlined (s : State) :
  length (underlined s) ≤ 1 ∧
  (length (underlined s) = 1 ↔ pathname s ∈ path <$> navItems) ∧
  (∀ item, item ∈ underlined s ↔ item ∈ navItems ∧ path item = pathname s).
Proof.
  assert (Hmem : ∀ item,
            item ∈ underlined s ↔ item ∈ navItems ∧ path item = pathname s).
  { intros item. unfold underlined. rewrite list_elem_of_In, filter_In.
    rewrite <- list_elem_of_In. unfold desktopLinkUnderline.
    rewrite String.eqb_eq. intuition congruence. }
  split; [|split; [|exact Hmem]];
    unfold underlined, desktopLinkUnderline, navItems; simpl;
    destruct (String.eqb_spec (pathname s) "/") as [E1|N1];
    destruct (String.eqb_spec (pathname s) "/docs") as [E2|N2];
    destruct (String.eqb_spec (pathname s) "/studio") as [E3|N3];
    simpl; try lia; try congruence.
  all: split; intros H; try discriminate; try reflexivity.
  all: first [ apply list_elem_of_In; simpl; auto
             | apply list_elem_of_In in H; simpl in H; intuition congruence ].
Qed.

(** X3: after a click on an entry of the navigation list, in the
    desktop list or in the mobile one, that entry and no other is
    underlined. *)
Theorem clicked_entry_is_underlined (s s' : State) (i : nat) :
  handle (MobileLinkClick i) s = Some s' ∨
  handle (DesktopLinkClick i) s = Some s' →
  ∃ item, navItems !! i = Some item ∧ pathname s' = path item ∧
          underlined s' = [item].
Proof.
  intros [H|H]; simpl in H; destruct (md s); try discriminate;
    destruct i as [|[|[|i]]]; simpl in H; try discriminate;
    injection H as <-; eexists; repeat split.
Qed.

Lemma clicked_entry_is_underlined_witness :
  (handle (MobileLinkClick 2) (mkState true false "/" false)
     = Some (mkState false false "/studio" false) ∨
   handle (DesktopLinkClick 2) (mkState true false "/" false)
     = Some (mkState false false "/studio" false)) ∧
  ∃ item, navItems !! 2 = Some item ∧
          pathname (mkState false false "/studio" false) = path item ∧
          underlined (mkState false false "/studio" false) = [item].
Proof.
  split; [left; reflexivity|].
  apply (clicked_entry_is_underlined (mkState true false "/" false) _ 2).
  left. reflexivity.
Defined.

Lemma lookup_navItem_path (i : nat) (item : NavItem) :
  navItems !! i = Some item → path item ∈ path <$> navItems.
Proof.
  intros Hi. apply list_elem_of_fmap. exists item. split; [reflexivity|].
  eapply list_elem_of_lookup_2, Hi.
Qed.

Lemma handle_pathname (e : event) (s s' : State) :
  handle e s = Some s' →
  pathname s' = pathname s ∨ pathname s' ∈ path <$> navItems.
Proof.
  destruct e as [y|w| |i|i|]; cbn [handle].
  - intros [= <-]. by left.
  - intros [= <-]. by left.
  - destruct (md s); [discriminate|]. intros [= <-]. by left.
  - destruct (md s); [discriminate|].
    destruct (navItems !! i) as [item|] eqn:Hi; [|discriminate].
    intros [= <-]. right. exact (lookup_navItem_path i item Hi).
  - destruct (md s); [|discriminate].
    destruct (navItems !! i) as [item|] eqn:Hi; [|discriminate].
    intros [= <-]. right. exact (lookup_navItem_path i item Hi).
  - intros [= <-]. right. exact (lookup_navItem_path 0 _ eq_refl).
Qed.

(** X4: the navigation bar never sends the user anywhere but to the
    paths of its entries: after any sequence of scrolls, resizes and
    clicks, the current path is the one the page was loaded at or one
    of [/], [/docs], [/studio]. *)
Theorem navigation_stays_on_known_paths (tr : list event) (s0 s : State) :
  run tr s0 = Some s →
  pathname s = pathname s0 ∨ pathname s ∈ path <$> navItems.
Proof.
  revert s0. induction tr as [|e tr IH]; intros s0; simpl.
  - intros [= <-]. by left.
  - destruct (handle e s0) as [s1|] eqn:He; simpl; [|discriminate].
    intros Hrun. destruct (IH _ Hrun) as [E|Hin]; [|by right].
    rewrite E. eapply handle_pathname, He.
Qed.

Lemma navigation_stays_on_known_paths_witness :
  run [Scroll 70; MenuButtonClick; MobileLinkClick 1; Resize true; LogoClick]
      (initial "/about" false) = Some (mkState false true "/" true) ∧
  (pathname (mkState false true "/" true) = pathname (initial "/about" false) ∨
   pathname (mkState false true "/" true) ∈ path <$> navItems).
Proof.
  split; [reflexivity|].
  apply (navigation_stays_on_known_paths
           [Scroll 70; MenuButtonClick; MobileLinkClick 1; Resize true; LogoClick]).
  reflexivity.
Defined.

End NavigationMore.

Module EffectsFacts.
Import Effects.
Local Open Scope nat_scope.

Lemma listenerOf_inj (m1 m2 : Component * nat) :
  listenerOf m1 = listenerOf m2 → m1 = m2.
Proof.
  destruct m1 as [[] i1], m2 as [[] i2]; simpl; intros [=]; congruence.
Qed.

Lemma effect_fresh (c : Component) (i : nat) (ms : list (Component * nat)) :
  (c, i) ∉ ms →
  effect c i (listenerOf <$> ms) = listenerOf <$> (ms ++ [(c, i)]).
Proof.
  intros Hfresh.
  assert (Hl : listenerOf (c, i) ∉ listenerOf <$> ms).
  { intros Hin. apply list_elem_of_fmap in Hin as (m & E & Hm).
    apply listenerOf_inj in E. by subst. }
  rewrite fmap_app. destruct c; simpl in *; unfold addEventListener;
    (destruct (decide _) as [Hin|_]; [contradiction | reflexivity]).
Qed.

Lemma filter_listeners (m : Component * nat) (ms : list (Component * nat)) :
  filter (λ l, l ≠ listenerOf m) (listenerOf <$> ms)
  = listenerOf <$> filter (λ m', m' ≠ m) ms.
Proof.
  induction ms as [|m' ms IH]; [reflexivity|].
  rewrite fmap_cons, !filter_cons, IH.
  destruct (decide (listenerOf m' ≠ listenerOf m)) as [Hne|He];
    destruct (decide (m' ≠ m)) as [Hne'|He']; try reflexivity.
  - exfalso. apply Hne. f_equal. by apply dec_stable.
  - exfalso. apply He. intros E. by apply Hne', listenerOf_inj.
Qed.

Lemma cleanup_mounted (c : Component) (i : nat) (ms : list (Component * nat)) :
  cleanup c i (listenerOf <$> ms)
  = listenerOf <$> filter (λ m, m ≠ (c, i)) ms.
Proof.
  rewrite <- filter_listeners. by destruct c.
Qed.

Lemma handle_listeners (e : lifecycle) (p p' : Page) :
  window p = listenerOf <$> mounted p → NoDup (mounted p) →
  handle e p = Some p' →
  window p' = listenerOf <$> mounted p' ∧ NoDup (mounted p').
Proof.
  intros Hw Hnd. destruct e as [c i|c i]; simpl;
    destruct (decide ((c, i) ∈ mounted p)) as [Hin|Hout]; try discriminate;
    intros [= <-]; simpl; rewrite Hw.
  - split; [by apply effect_fresh|].
    apply NoDup_app. repeat split; [exact Hnd| |apply NoDup_singleton].
    intros m Hm Hm'. apply list_elem_of_singleton in Hm'. by subst.
  - split; [apply cleanup_mounted | by apply NoDup_filter].
Qed.

(** X5: Navigation registers its scroll handler, and HeroSection its
    mousemove handler, when an instance is mounted, and removes the same
    handler when the instance is unmounted: after any sequence of mounts
    and unmounts the listeners on the window are exactly those of the
    instances that are mounted, one each, in the order of mounting; when
    no instance is left, no listener is left. *)
Theorem listeners_are_those_of_mounted (tr : list lifecycle) (p : Page) :
  run tr (mkPage [] []) = Some p →
  window p = listenerOf <$> mounted p ∧
  NoDup (window p) ∧
  (mounted p = [] → window p = []).
Proof.
  assert (Hgen : ∀ tr p0 p, window p0 = listenerOf <$> mounted p0 →
            NoDup (mounted p0) → run tr p0 = Some p →
            window p = listenerOf <$> mounted p ∧ NoDup (mounted p)).
  { clear. induction tr as [|e tr IH]; intros p0 p Hw Hnd; simpl.
    - intros [= <-]. by split.
    - destruct (handle e p0) as [p1|] eqn:He; simpl; [|discriminate].
      destruct (handle_listeners _ _ _ Hw Hnd He) as [Hw1 Hnd1].
      by apply IH. }
  intros Hrun.
  destruct (Hgen tr (mkPage [] []) p eq_refl (NoDup_nil_2) Hrun) as [Hw Hnd].
  split; [exact Hw|]. split.
  - rewrite Hw. apply NoDup_fmap_2; [|exact Hnd].
    intros m1 m2. apply listenerOf_inj.
  - intros Hm. by rewrite Hw, Hm.
Qed.

Lemma listeners_are_those_of_mounted_witness :
  let p := mkPage [mkListener "mousemove" (HandleMouseMove 0);
                   mkListener "scroll" (HandleScroll 1)]
                  [(HeroSectionComponent, 0); (NavigationComponent, 1)] in
  run [Mount NavigationComponent 0; Mount HeroSectionComponent 0;
       Unmount NavigationComponent 0; Mount NavigationComponent 1]
      (mkPage [] []) = Some p ∧
  window p = listenerOf <$> mounted p ∧
  NoDup (window p) ∧
  (mounted p = [] → window p = []).
Proof.
  intros p. split; [reflexivity|].
  apply (listeners_are_those_of_mounted
           [Mount NavigationComponent 0; Mount HeroSectionComponent 0;
            Unmount NavigationComponent 0; Mount NavigationComponent 1]).
  reflexivity.
Defined.

Example everything_unmounted_leaves_no_listener :
  window <$> run [Mount NavigationComponent 0; Mount HeroSectionComponent 0;
                  Unmount HeroSectionComponent 0; Unmount NavigationComponent 0]
                 (mkPage [] []) = Some [].
Proof. reflexivity. Qed.

End EffectsFacts.

Module CodeExamplesMore.
Import CodeExamples CodeExamplesView CodeExamplesFacts.
Local Open Scope nat_scope.

Lemma activeExample_elem (s : State) (ex : Example) :
  activeExample s = Some ex → ex ∈ examples.
Proof.
  destruct (find_or_first_defined
              (λ ex, String.eqb (id ex) (activeTab s)) examples
              examples_nonempty) as (ex' & Hex & Hin & _).
  unfold activeExample. rewrite Hex. by intros [= <-].
Qed.

Lemma mount_state (t0 : nat) (clip : string) (s0 : State) :
  mount t0 clip = Normal s0 →
  s0 = mkState "multi-llm" ∅ [] [] t0 clip [] [].
Proof. by intros [= <-]. Qed.

(** *** Ids and texts *)

Lemma wellFormed_step (e : event) (s s' : State) :
  wellFormed s → handle e s = Some s' → wellFormed s'.
Proof.
  intros (Htab & Hkeys & Hin & Htm) H. destruct e as [i| |k r|d|k].
  - apply handle_TabClick in H as (ex & Hex & ->).
    split; [exact (lookup_example_id i ex Hex) | by repeat split].
  - apply handle_CopyClick in H as (ex & Hex & ->).
    repeat split; auto. cbn [inflight copyToClipboard].
    apply Forall_app. split; [exact Hin|]. apply Forall_singleton.
    exists ex. repeat split. by eapply activeExample_elem.
  - apply handle_ClipboardSettle in H as (w & Hw & ->).
    pose proof (Forall_lookup_1 _ _ _ _ Hin Hw) as (ex & Hex & _ & Hid).
    assert (Hdel : Forall (λ w, ∃ ex, ex ∈ examples ∧ text w = code ex ∧
                                 caller_id w = id ex) (delete k (inflight s)))
      by by apply Forall_delete.
    destruct r as [[]|err]; [|by repeat split].
    split; [exact Htab|]. split; [|split; [exact Hdel|]].
    + intros x. cbn [copiedStates turn copyToClipboard_resume].
      change (is_Some (<[caller_id w := true]> (copiedStates s) !! x)
              → x ∈ id <$> examples).
      destruct (decide (caller_id w = x)) as [<-|Hne].
      * intros _. rewrite Hid. apply list_elem_of_fmap. eauto.
      * rewrite lookup_insert_ne by exact Hne. apply Hkeys.
    + change (Forall (λ t, captured_id t ∈ id <$> examples)
                (timers s ++ [mkTimer (now s + 2000) (caller_id w)])).
      apply Forall_app. split; [exact Htm|]. apply Forall_singleton.
      cbn [captured_id]. rewrite Hid. apply list_elem_of_fmap. eauto.
  - injection H as <-. by repeat split.
  - apply handle_TimerFire in H as (t & Ht & _ & ->).
    pose proof (Forall_lookup_1 _ _ _ _ Htm Ht) as Hcap.
    split; [exact Htab|]. split; [|split; [exact Hin|]].
    + intros x.
      change (is_Some (<[captured_id t := false]> (copiedStates s) !! x)
              → x ∈ id <$> examples).
      destruct (decide (captured_id t = x)) as [<-|Hne].
      * intros _. exact Hcap.
      * rewrite lookup_insert_ne by exact Hne. apply Hkeys.
    + change (Forall (λ t, captured_id t ∈ id <$> examples)
                (delete k (timers s))).
      by apply Forall_delete.
Qed.

Lemma wellFormed_run (tr : list event) (s s' : State) :
  wellFormed s → run tr s = Some s' → wellFormed s'.
Proof.
  revert s. induction tr as [|e tr IH]; intros s Hs; simpl.
  - by intros [= <-].
  - destruct (handle e s) as [s1|] eqn:He; simpl; [|discriminate].
    apply IH. by eapply wellFormed_step.
Qed.

Lemma wellFormed_mount (t0 : nat) (clip : string) (s0 : State) :
  mount t0 clip = Normal s0 → wellFormed s0.
Proof.
  intros ->%mount_state. repeat split.
  - apply list_elem_of_here.
  - intros x [b Hb]. cbn in Hb. by rewrite lookup_empty in Hb.
  - constructor.
  - constructor.
Qed.

Lemma reachable_wellFormed (s : State) : reachable s → wellFormed s.
Proof.
  intros (t0 & clip & s0 & tr & Hm & Hr).
  apply wellFormed_mount in Hm. exact (wellFormed_run tr s0 s Hm Hr).
Qed.

(** X6: in every reachable state, the flags of [copiedStates] are
    flags of declared examples only, every pending clipboard write holds
    the code of the example whose id it was started for, and every
    pending timer resets a declared example. *)
Theorem state_mentions_declared_examples_only (s : State) :
  reachable s →
  (∀ x, is_Some (copiedStates s !! x) → x ∈ id <$> examples) ∧
  Forall (λ w, ∃ ex, ex ∈ examples ∧ text w = code ex ∧ caller_id w = id ex)
         (inflight s) ∧
  Forall (λ t, captured_id t ∈ id <$> examples) (timers s).
Proof.
  intros Hr. by destruct (reachable_wellFormed s Hr) as (_ & ? & ? & ?).
Qed.

Lemma state_mentions_declared_examples_only_witness :
  let s := mkState "python-api" {[ "multi-llm" := true ]}
             [mkWrite code_python_api "python-api"]
             [mkTimer 2000 "multi-llm"] 5 code_multi_llm [] [] in
  reachable s ∧
  (∀ x, is_Some (copiedStates s !! x) → x ∈ id <$> examples) ∧
  Forall (λ w, ∃ ex, ex ∈ examples ∧ text w = code ex ∧ caller_id w = id ex)
         (inflight s) ∧
  Forall (λ t, captured_id t ∈ id <$> examples) (timers s).
Proof.
  intros s.
  assert (Hr : reachable s).
  { exists 0, EmptyString, (mkState "multi-llm" ∅ [] [] 0 EmptyString [] []),
      [CopyClick; ClipboardSettle 0 (Normal ()); TabClick 1; Tick 5; CopyClick].
    split; reflexivity. }
  split; [exact Hr|].
  exact (state_mentions_declared_examples_only s Hr).
Defined.

(** X7: when a clipboard write is fulfilled, the clipboard holds the
    code of one of the examples and the flag that is set is the flag of
    that same example, whichever tab is active by then. *)
Theorem copied_text_and_flag_agree (s s' : State) (k : nat) :
  reachable s →
  handle (ClipboardSettle k (Normal ())) s = Some s' →
  ∃ ex, ex ∈ examples ∧ clipboard s' = code ex ∧
        copiedStates s' !! id ex = Some true ∧
        activeTab s' = activeTab s.
Proof.
  intros Hr H.
  destruct (reachable_wellFormed s Hr) as (_ & _ & Hin & _).
  apply handle_ClipboardSettle in H as (w & Hw & ->).
  pose proof (Forall_lookup_1 _ _ _ _ Hin Hw) as (ex & Hex & Htext & Hid).
  exists ex. split; [exact Hex|]. split; [exact Htext|].
  split; [|reflexivity].
  change (<[caller_id w := true]> (copiedStates s) !! id ex = Some true).
  rewrite Hid. apply lookup_insert_eq.
Qed.

Lemma copied_text_and_flag_agree_witness :
  let s := mkState "openai-plugin" ∅ [mkWrite code_multi_llm "multi-llm"] [] 3
                   EmptyString [] [] in
  let s' := mkState "openai-plugin" {[ "multi-llm" := true ]} []
                    [mkTimer 2003 "multi-llm"] 3 code_multi_llm [] [] in
  reachable s ∧
  handle (ClipboardSettle 0 (Normal ())) s = Some s' ∧
  ∃ ex, ex ∈ examples ∧ clipboard s' = code ex ∧
        copiedStates s' !! id ex = Some true ∧
        activeTab s' = activeTab s.
Proof.
  intros s s'.
  assert (Hr : reachable s).
  { exists 3, EmptyString, (mkState "multi-llm" ∅ [] [] 3 EmptyString [] []),
      [CopyClick; TabClick 2].
    split; reflexivity. }
  split; [exact Hr|]. split; [reflexivity|].
  apply (copied_text_and_flag_agree s s' 0 Hr). reflexivity.
Defined.

(** *** Every check mark is taken back *)

Lemma elem_of_delete_other {A} (l : list A) (k : nat) (a b : A) :
  l !! k = Some a → b ∈ l → b ≠ a → b ∈ delete k l.
Proof.
  intros Hk Hb Hne. apply list_elem_of_lookup in Hb as [j Hj].
  assert (j ≠ k) by (intros ->; congruence).
  destruct (decide (j < k)) as [Hlt|Hge].
  - apply list_elem_of_lookup. exists j. by rewrite list_lookup_delete_lt.
  - destruct j as [|j]; [lia|].
    apply list_elem_of_lookup. exists j.
    rewrite list_lookup_delete_ge by lia. exact Hj.
Qed.

Lemma resetPending_step (e : event) (s s' : State) :
  resetPending s → handle e s = Some s' → resetPending s'.
Proof.
  intros [Hflag Hdue] H. destruct e as [i| |k r|d|k].
  - apply handle_TabClick in H as (ex & _ & ->). by split.
  - apply handle_CopyClick in H as (ex & _ & ->). by split.
  - apply handle_ClipboardSettle in H as (w & _ & ->).
    destruct r as [[]|err]; [|by split]. split.
    + intros x.
      change (<[caller_id w := true]> (copiedStates s) !! x = Some true →
              ∃ t, t ∈ timers s ++ [mkTimer (now s + 2000) (caller_id w)] ∧
                   captured_id t = x).
      destruct (decide (caller_id w = x)) as [<-|Hne].
      * intros _. exists (mkTimer (now s + 2000) (caller_id w)).
        split; [|reflexivity].
        apply elem_of_app. right. apply list_elem_of_here.
      * rewrite lookup_insert_ne by exact Hne. intros Hx.
        destruct (Hflag x Hx) as (t & Ht & Hc). exists t.
        split; [apply elem_of_app; by left | exact Hc].
    + change (Forall (λ t, due t ≤ now s + 2000)
                (timers s ++ [mkTimer (now s + 2000) (caller_id w)])).
      apply Forall_app. split; [exact Hdue|]. by apply Forall_singleton.
  - injection H as <-. split; [exact Hflag|].
    eapply Forall_impl; [exact Hdue|]. simpl. intros t Ht. lia.
  - apply handle_TimerFire in H as (t & Ht & _ & ->). split.
    + intros x.
      change (<[captured_id t := false]> (copiedStates s) !! x = Some true →
              ∃ t', t' ∈ delete k (timers s) ∧ captured_id t' = x).
      destruct (decide (captured_id t = x)) as [<-|Hne].
      * rewrite lookup_insert_eq. discriminate.
      * rewrite lookup_insert_ne by exact Hne. intros Hx.
        destruct (Hflag x Hx) as (t' & Ht' & Hc). exists t'.
        split; [|exact Hc].
        apply (elem_of_delete_other _ _ t); auto. congruence.
    + change (Forall (λ t, due t ≤ now s + 2000) (delete k (timers s))).
      by apply Forall_delete.
Qed.

Lemma resetPending_run (tr : list event) (s0 s : State) :
  resetPending s0 → run tr s0 = Some s → resetPending s.
Proof.
  revert s0. induction tr as [|e tr IH]; intros s0 H0; simpl.
  - by intros [= <-].
  - destruct (handle e s0) as [s1|] eqn:He; simpl; [|discriminate].
    apply IH. by eapply resetPending_step.
Qed.

Lemma reachable_resetPending (s : State) : reachable s → resetPending s.
Proof.
  intros (t0 & clip & s0 & tr & ->%mount_state & Hr).
  eapply resetPending_run; [|exact Hr]. split.
  - intros x Hx. cbn in Hx. by rewrite lookup_empty in Hx.
  - constructor.
Qed.

(** X8: in every reachable state, an example whose copy flag is set has
    a reset timer pending, and that timer is due at most 2000 ms from
    now: no check mark is left without a reset. *)
Theorem set_flag_has_reset_pending (s : State) (x : string) :
  reachable s →
  copiedStates s !! x = Some true →
  ∃ t, t ∈ timers s ∧ captured_id t = x ∧ due t ≤ now s + 2000.
Proof.
  intros Hr Hx. destruct (reachable_resetPending s Hr) as [Hflag Hdue].
  destruct (Hflag x Hx) as (t & Ht & Hc). exists t.
  repeat split; auto.
  rewrite Forall_forall in Hdue. by apply Hdue.
Qed.

Lemma set_flag_has_reset_pending_witness :
  let s := mkState "python-api" {[ "multi-llm" := true ]} []
                   [mkTimer 2000 "multi-llm"] 1200 code_multi_llm [] [] in
  reachable s ∧
  copiedStates s !! "multi-llm" = Some true ∧
  ∃ t, t ∈ timers s ∧ captured_id t = "multi-llm" ∧ due t ≤ now s + 2000.
Proof.
  intros s.
  assert (Hr : reachable s).
  { exists 0, EmptyString, (mkState "multi-llm" ∅ [] [] 0 EmptyString [] []),
      [CopyClick; ClipboardSettle 0 (Normal ()); TabClick 1; Tick 1200].
    split; reflexivity. }
  split; [exact Hr|]. split; [reflexivity|].
  apply (set_flag_has_reset_pending s "multi-llm" Hr). reflexivity.
Defined.

(** *** What changes a flag *)

(** X9: the copy flag of an example changes only when a clipboard write
    started for that example is fulfilled or a timer that captured its
    id fires; tab clicks, copy clicks, rejected writes, the passing of
    time and the events of other examples leave it as it is. *)
Theorem flag_changes_only_by_own_events (y : string) (e : event) (s s' : State) :
  handle e s = Some s' →
  copiedStates s' !! y ≠ copiedStates s !! y →
  (∃ k w, e = ClipboardSettle k (Normal ()) ∧ inflight s !! k = Some w ∧
          caller_id w = y ∧ copiedStates s' !! y = Some true) ∨
  (∃ k t, e = TimerFire k ∧ timers s !! k = Some t ∧
          captured_id t = y ∧ copiedStates s' !! y = Some false).
Proof.
  intros H Hch. destruct e as [i| |k r|d|k].
  - apply handle_TabClick in H as (ex & _ & ->). contradiction.
  - apply handle_CopyClick in H as (ex & _ & ->). contradiction.
  - apply handle_ClipboardSettle in H as (w & Hw & ->).
    destruct r as [[]|err]; [|contradiction].
    change (<[caller_id w := true]> (copiedStates s) !! y
            ≠ copiedStates s !! y) in Hch.
    left. exists k, w. destruct (decide (caller_id w = y)) as [Hy|Hne].
    + repeat split; auto.
      change (<[caller_id w := true]> (copiedStates s) !! y = Some true).
      rewrite Hy. apply lookup_insert_eq.
    + rewrite lookup_insert_ne in Hch by exact Hne. contradiction.
  - injection H as <-. contradiction.
  - apply handle_TimerFire in H as (t & Ht & _ & ->).
    change (<[captured_id t := false]> (copiedStates s) !! y
            ≠ copiedStates s !! y) in Hch.
    right. exists k, t. destruct (decide (captured_id t = y)) as [Hy|Hne].
    + repeat split; auto.
      change (<[captured_id t := false]> (copiedStates s) !! y = Some false).
      rewrite Hy. apply lookup_insert_eq.
    + rewrite lookup_insert_ne in Hch by exact Hne. contradiction.
Qed.

Lemma flag_changes_only_by_own_events_witness :
  let s := mkState "python-api" {[ "multi-llm" := true ]} []
                   [mkTimer 2000 "multi-llm"] 2000 code_multi_llm [] [] in
  let s' := mkState "python-api" {[ "multi-llm" := false ]} [] [] 2000
                    code_multi_llm [] [] in
  handle (TimerFire 0) s = Some s' ∧
  copiedStates s' !! "multi-llm" ≠ copiedStates s !! "multi-llm" ∧
  ((∃ k w, TimerFire 0 = ClipboardSettle k (Normal ()) ∧
           inflight s !! k = Some w ∧ caller_id w = "multi-llm" ∧
           copiedStates s' !! "multi-llm" = Some true) ∨
   (∃ k t, TimerFire 0 = TimerFire k ∧ timers s !! k = Some t ∧
           captured_id t = "multi-llm" ∧
           copiedStates s' !! "multi-llm" = Some false)).
Proof.
  intros s s'.
  assert (H : handle (TimerFire 0) s = Some s') by reflexivity.
  assert (Hne : copiedStates s' !! "multi-llm" ≠ copiedStates s !! "multi-llm")
    by discriminate.
  split; [exact H|]. split; [exact Hne|].
  exact (flag_changes_only_by_own_events "multi-llm" (TimerFire 0) s s' H Hne).
Defined.

(** *** No check mark without a copy *)

Lemma unfulfilled_step (e : event) (s s' : State) :
  isFulfilled e = false → copiedStates s = ∅ → timers s = [] →
  handle e s = Some s' →
  copiedStates s' = ∅ ∧ timers s' = [] ∧ clipboard s' = clipboard s.
Proof.
  intros He Hc Ht H. destruct e as [i| |k r|d|k].
  - apply handle_TabClick in H as (ex & _ & ->). by repeat split.
  - apply handle_CopyClick in H as (ex & _ & ->). by repeat split.
  - apply handle_ClipboardSettle in H as (w & _ & ->).
    destruct r as [[]|err]; [discriminate|]. by repeat split.
  - injection H as <-. by repeat split.
  - apply handle_TimerFire in H as (t & Hk & _ & _).
    rewrite Ht in Hk. discriminate.
Qed.

(** X10: as long as no clipboard write has been fulfilled, no example
    shows the check mark: from the mounted component, after any events
    among which no write is fulfilled (writes may be rejected or still
    pending), every flag is unset, no timer is pending and the clipboard
    is untouched. *)
Theorem no_check_mark_without_fulfilled_write (t0 : nat) (clip : string)
    (s0 s : State) (tr : list event) :
  mount t0 clip = Normal s0 →
  Forall (λ e, isFulfilled e = false) tr →
  run tr s0 = Some s →
  (∀ x, copied s x = false) ∧ timers s = [] ∧ clipboard s = clip.
Proof.
  intros ->%mount_state Htr Hrun.
  assert (Hgen : ∀ s1, copiedStates s1 = ∅ → timers s1 = [] →
            run tr s1 = Some s →
            copiedStates s = ∅ ∧ timers s = [] ∧ clipboard s = clipboard s1).
  { clear Hrun. induction Htr as [|e tr He _ IH]; intros s1 Hc Ht; simpl.
    - by intros [= <-].
    - destruct (handle e s1) as [s2|] eqn:H2; simpl; [|discriminate].
      destruct (unfulfilled_step _ _ _ He Hc Ht H2) as (Hc2 & Ht2 & <-).
      by apply IH. }
  destruct (Hgen (mkState "multi-llm" ∅ [] [] t0 clip [] [])
              eq_refl eq_refl Hrun) as (Hc & Ht & Hclip).
  split; [|by split]. intros x. unfold copied. by rewrite Hc, lookup_empty.
Qed.

Lemma no_check_mark_without_fulfilled_write_witness :
  let s0 := mkState "multi-llm" ∅ [] [] 0 "old" [] [] in
  let tr := [CopyClick; TabClick 1; CopyClick;
             ClipboardSettle 1 (Throw "NotAllowedError"); Tick 5000] in
  let s := mkState "python-api" ∅ [mkWrite code_multi_llm "multi-llm"] [] 5000
             "old" [("Failed to copy text: ", "NotAllowedError")] [] in
  mount 0 "old" = Normal s0 ∧
  Forall (λ e, isFulfilled e = false) tr ∧
  run tr s0 = Some s ∧
  (∀ x, copied s x = false) ∧ timers s = [] ∧ clipboard s = "old".
Proof.
  intros s0 tr s.
  assert (Htr : Forall (λ e, isFulfilled e = false) tr) by repeat constructor.
  split; [reflexivity|]. split; [exact Htr|]. split; [reflexivity|].
  exact (no_check_mark_without_fulfilled_write 0 "old" s0 s tr
           eq_refl Htr eq_refl).
Defined.

(** *** The highlighted tab *)

Lemma declared_tab_cases (tab : string) :
  tab ∈ id <$> examples →
  tab = "multi-llm" ∨ tab = "python-api" ∨ tab = "openai-plugin".
Proof.
  rewrite example_ids, list_elem_of_In. simpl. intuition.
Qed.

(** X11: in every reachable state exactly one tab button is rendered in
    the active style, and it is the tab of the example that the code
    block shows.  For an [activeTab] that is no example's id the two
    differ: no tab is highlighted while the code block shows the first
    example. *)
Theorem highlighted_tab_is_shown_example :
  (∀ s, reachable s →
        ∃ ex, activeExample s = Some ex ∧ highlightedTabs s = [ex] ∧
              id ex = activeTab s) ∧
  (∀ s, activeTab s ∉ id <$> examples →
        highlightedTabs s = [] ∧ activeExample s = examples !! 0).
Proof.
  split.
  - intros s Hr. destruct (reachable_wellFormed s Hr) as (Htab & _).
    apply declared_tab_cases in Htab. destruct s as [tab c i t n cl co u].
    simpl in Htab. destruct Htab as [->|[->| ->]];
      eexists; split; try reflexivity; split; reflexivity.
  - intros s Htab.
    assert (Hne : ∀ ex, ex ∈ examples → String.eqb (id ex) (activeTab s) = false).
    { intros ex Hex. apply String.eqb_neq. intros E. apply Htab.
      rewrite <- E. apply list_elem_of_fmap. eauto. }
    assert (H1 := Hne _ (list_elem_of_lookup_2 examples 0 _ eq_refl)).
    assert (H2 := Hne _ (list_elem_of_lookup_2 examples 1 _ eq_refl)).
    assert (H3 := Hne _ (list_elem_of_lookup_2 examples 2 _ eq_refl)).
    cbn [id] in H1, H2, H3.
    unfold highlightedTabs, tabButtonClass, activeExample, examples.
    cbn [List.filter List.find id].
    rewrite !(String.eqb_sym (activeTab s)), H1, H2, H3.
    split; reflexivity.
Qed.

Example highlighted_tab_after_clicks :
  (λ s, (id <$> highlightedTabs s, id <$> activeExample s)) <$>
    run [TabClick 2; CopyClick; TabClick 1]
        (mkState "multi-llm" ∅ [] [] 0 EmptyString [] [])
  = Some (["python-api"], Some "python-api").
Proof. reflexivity. Qed.

End CodeExamplesMore.

Module ScriptsFacts.
Import Scripts.
Local Open Scope nat_scope.

(** The commands a run executes, in order. *)
Lemma backend_commands (e : BackendEnv) :
  List.filter isCommand (actions (start_backend e)) =
  if main_py_is_file e && venv_is_dir e then
    if fastapi_importable e
    then [Run python_import_fastapi; Run uvicorn_command]
    else [Run python_import_fastapi]
  else [].
Proof. by destruct e as [[] [] [] u]. Qed.

(** X12: start-backend.sh starts the server exactly when [app/main.py]
    is a file, [.venv] is a directory and fastapi can be imported; the
    server command is then the last thing the script does, after the
    import check, no error line is printed, and the status of the
    script is the status of the server. *)
Theorem start_backend_launches_iff_checks_pass (e : BackendEnv) :
  (Run uvicorn_command ∈ actions (start_backend e) ↔
   main_py_is_file e && venv_is_dir e && fastapi_importable e = true) ∧
  (main_py_is_file e && venv_is_dir e && fastapi_importable e = true →
   last (actions (start_backend e)) = Some (Run uvicorn_command) ∧
   List.filter isCommand (actions (start_backend e))
     = [Run python_import_fastapi; Run uvicorn_command] ∧
   List.filter isErrorLine (actions (start_backend e)) = [] ∧
   status (start_backend e) = uvicorn_exit e).
Proof.
  destruct e as [[] [] [] u]; (split; [split|]); cbn; intros H;
    try discriminate; try reflexivity; try (by repeat split).
  - rewrite list_elem_of_In. simpl. tauto.
  - apply list_elem_of_In in H. simpl in H. exfalso. intuition discriminate.
  - apply list_elem_of_In in H. simpl in H. exfalso. intuition discriminate.
  - apply list_elem_of_In in H. simpl in H. exfalso. intuition discriminate.
  - apply list_elem_of_In in H. simpl in H. exfalso. intuition discriminate.
  - apply list_elem_of_In in H. simpl in H. exfalso. intuition discriminate.
  - apply list_elem_of_In in H. simpl in H. exfalso. intuition discriminate.
  - apply list_elem_of_In in H. simpl in H. exfalso. intuition discriminate.
Qed.

(** The error message of the first check that fails. *)
Lemma backend_error_line (e : BackendEnv) :
  List.filter isErrorLine (actions (start_backend e)) =
  if negb (main_py_is_file e) then
    [Echo "❌ Backend files not found. Please run this script from the NeuraVault MCP project root."]
  else if negb (venv_is_dir e) then
    [Echo "❌ Virtual environment not found. Please run './setup.sh' first."]
  else if negb (fastapi_importable e) then
    [Echo "❌ FastAPI not installed. Please run './setup.sh' first."]
  else [].
Proof. by destruct e as [[] [] [] u]. Qed.

(** X13: when one of its checks fails, start-backend.sh stops with
    status 1 at the first check that fails: it prints one error line,
    the one of that check, as its last output, never starts the server,
    and activates the virtual environment only if the two checks before
    the activation passed. *)
Theorem start_backend_fails_fast (e : BackendEnv) :
  (main_py_is_file e && venv_is_dir e && fastapi_importable e = false) →
  status (start_backend e) = Some 1 ∧
  (∃ msg, List.filter isErrorLine (actions (start_backend e)) = [Echo msg] ∧
          last (actions (start_backend e)) = Some (Echo msg)) ∧
  (Run uvicorn_command ∉ actions (start_backend e)) ∧
  (Source ".venv/bin/activate" ∈ actions (start_backend e) ↔
   main_py_is_file e && venv_is_dir e = true) ∧
  (main_py_is_file e = false →
   List.filter isCommand (actions (start_backend e)) = []).
Proof.
  destruct e as [[] [] [] u]; cbn; intros H; try discriminate;
    (split; [reflexivity|]); (split; [eexists; split; reflexivity|]);
    (split; [rewrite list_elem_of_In; simpl; intuition discriminate|]);
    (split; [|by intros]); rewrite list_elem_of_In; simpl;
    intuition discriminate.
Qed.

Lemma start_backend_fails_fast_witness :
  let e := mkBackendEnv true false true None in
  main_py_is_file e && venv_is_dir e && fastapi_importable e = false ∧
  status (start_backend e) = Some 1 ∧
  (∃ msg, List.filter isErrorLine (actions (start_backend e)) = [Echo msg] ∧
          last (actions (start_backend e)) = Some (Echo msg)) ∧
  (Run uvicorn_command ∉ actions (start_backend e)) ∧
  (Source ".venv/bin/activate" ∈ actions (start_backend e) ↔
   main_py_is_file e && venv_is_dir e = true) ∧
  (main_py_is_file e = false →
   List.filter isCommand (actions (start_backend e)) = []).
Proof.
  intros e. split; [reflexivity|].
  apply (start_backend_fails_fast e). reflexivity.
Defined.

Lemma frontend_commands (e : FrontendEnv) :
  List.filter isCommand (actions (start_frontend e)) =
  if frontend_is_dir e then
    if node_modules_is_dir e then [Run "npm run dev"]
    else if (npm_install_exit e =? 0)
         then [Run "npm install"; Run "npm run dev"]
         else [Run "npm install"]
  else [].
Proof. by destruct e as [[] [] [|n] u]. Qed.

(** X14: the frontend script installs the dependencies exactly when the
    frontend directory is there and has no [node_modules]; it starts the
    development server, as its last action and with the server's status
    as its own, exactly when the frontend directory is there and the
    dependencies are installed already or their installation exits with
    0. *)
Theorem start_frontend_install_and_launch (e : FrontendEnv) :
  (Run "npm install" ∈ actions (start_frontend e) ↔
   frontend_is_dir e && negb (node_modules_is_dir e) = true) ∧
  (Run "npm run dev" ∈ actions (start_frontend e) ↔
   frontend_is_dir e &&
     (node_modules_is_dir e || (npm_install_exit e =? 0)) = true) ∧
  (Run "npm run dev" ∈ actions (start_frontend e) →
   last (actions (start_frontend e)) = Some (Run "npm run dev") ∧
   status (start_frontend e) = npm_dev_exit e ∧
   List.filter isErrorLine (actions (start_frontend e)) = []).
Proof.
  destruct e as [[] [] [|n] u]; cbn;
    (split; [split; intros H | split; [split; intros H | intros H]]);
    first [ discriminate
          | reflexivity
          | rewrite list_elem_of_In; simpl; tauto
          | by repeat split
          | apply list_elem_of_In in H; simpl in H; exfalso;
            intuition discriminate ].
Qed.

(** X15: the frontend script fails with status 1 in two cases only: the
    frontend directory is missing, and then it changes no directory and
    runs no command; or the installation of the dependencies exits with
    a status other than 0, and then the development server is not
    started.  In both it prints one error line, as its last output. *)
Theorem start_frontend_fails_fast (e : FrontendEnv) :
  (frontend_is_dir e &&
     (node_modules_is_dir e || (npm_install_exit e =? 0)) = false) →
  status (start_frontend e) = Some 1 ∧
  (∃ msg, List.filter isErrorLine (actions (start_frontend e)) = [Echo msg] ∧
          last (actions (start_frontend e)) = Some (Echo msg)) ∧
  (Run "npm run dev" ∉ actions (start_frontend e)) ∧
  (frontend_is_dir e = false →
   (Cd "frontend" ∉ actions (start_frontend e)) ∧
   List.filter isCommand (actions (start_frontend e)) = []) ∧
  (frontend_is_dir e = true →
   List.filter isCommand (actions (start_frontend e)) = [Run "npm install"]).
Proof.
  destruct e as [[] [] [|n] u]; cbn; intros H; try discriminate;
    (split; [reflexivity|]); (split; [eexists; split; reflexivity|]);
    (split; [rewrite list_elem_of_In; simpl; intuition discriminate|]);
    split; intros H'; try discriminate; try reflexivity.
  all: split; [rewrite list_elem_of_In; simpl; intuition discriminate
              | reflexivity].
Qed.

Lemma start_frontend_fails_fast_witness :
  let e := mkFrontendEnv true false 254 None in
  frontend_is_dir e &&
    (node_modules_is_dir e || (npm_install_exit e =? 0)) = false ∧
  status (start_frontend e) = Some 1 ∧
  (∃ msg, List.filter isErrorLine (actions (start_frontend e)) = [Echo msg] ∧
          last (actions (start_frontend e)) = Some (Echo msg)) ∧
  (Run "npm run dev" ∉ actions (start_frontend e)) ∧
  (frontend_is_dir e = false →
   (Cd "frontend" ∉ actions (start_frontend e)) ∧
   List.filter isCommand (actions (start_frontend e)) = []) ∧
  (frontend_is_dir e = true →
   List.filter isCommand (actions (start_frontend e)) = [Run "npm install"]).
Proof.
  intros e. split; [reflexivity|].
  apply (start_frontend_fails_fast e). reflexivity.
Defined.

End ScriptsFacts.
